(** * solve_captcha.py: a shallow embedding and its checked properties

    The script reads an image, resizes and normalises it, runs a
    pre-trained Keras model on it and decodes one character per output
    slot by argmax.  The embedding follows [src/solve_captcha.py]
    function by function.  Calls into cv2, Keras and the file system are
    parameters of a section; numpy's [argmax], Python's [str], [chr] and
    [ord], and the part of argparse the script's parser exercises are
    written out. *)

From Stdlib Require Import ZArith Lia Bool Ascii String DecimalString.
From Stdlib Require Import Strings.Byte.
From Stdlib Require Import Floats.SpecFloat.
From stdpp Require Import base option list strings gmap.

Local Open Scope Z_scope.

(** ** Python values *)

(** A Python [str] is a sequence of Unicode code points. *)
Abbreviation pystr := (list Z) (only parsing).

(** A literal of the source, as code points. *)
Definition py (s : string) : pystr :=
  map (fun a => Z.of_N (N_of_ascii a)) (list_ascii_of_string s).

(** [ord(c)] of a one-character literal. *)
Definition ord (c : ascii) : Z := Z.of_N (N_of_ascii c).

Inductive exn : Type :=
  | ValueError (msg : string)
  | ExternalError (msg : string).

(** What evaluating a Python expression ends in: a value, [SystemExit]
    raised by [sys.exit], or another exception.  Nothing in the script
    catches either. *)
Inductive result (A : Type) : Type :=
  | Ret (a : A)
  | Exit (status : Z)
  | Raise (e : exn).
Arguments Ret {A} a.
Arguments Exit {A} status.
Arguments Raise {A} e.

Definition rbind {A B} (r : result A) (k : A -> result B) : result B :=
  match r with
  | Ret a => k a
  | Exit n => Exit n
  | Raise e => Raise e
  end.

(** [chr(n)]: the one-character string of code point [n]; [ValueError]
    outside [range(0x110000)].  This is CPython's [chr] for every
    argument that fits a C int (from -2^31 to 2^31 - 1); beyond that
    CPython still raises, but reports an [OverflowError], so the
    statements about [index_to_char] name the exception only for
    arguments below 2^31. *)
Definition chr (n : Z) : result pystr :=
  if (0 <=? n) && (n <? 0x110000) then Ret [n]
  else Raise (ValueError "chr() arg not in range(0x110000)").

(** [str(n)] of an integer: its decimal numeral, with a leading minus
    sign when negative.  CPython refuses, with [ValueError], to convert
    an integer of more than 4300 digits (its default limit); statements
    about [str] stay below that size. *)
Definition str_int (n : Z) : pystr := py (NilZero.string_of_int (Z.to_int n)).

(** ** The alphabet *)

Definition is_digit (c : Z) : bool := (ord "0" <=? c) && (c <=? ord "9").
Definition is_lower (c : Z) : bool := (ord "a" <=? c) && (c <=? ord "z").

(** Membership in the character class [[0-9a-z]]. *)
Definition in_alphabet (c : Z) : bool := is_digit c || is_lower c.

(** ** index_to_char (lines 26-31) *)

Definition index_to_char (index : Z) : result pystr :=
  if index <? 10 then Ret (str_int index)
  else chr (index - 10 + ord "a").

(** ** float32 and arrays *)

(** numpy's [float32] is IEEE binary32: 24 bits of precision, infinities
    at exponent 128. *)
Abbreviation float32 := spec_float (only parsing).
Definition f32_prec : Z := 24.
Definition f32_emax : Z := 128.

(** Conversion of an integer to [float32], rounding to nearest even. *)
Definition f32_of_Z (n : Z) : float32 := binary_normalize f32_prec f32_emax n 0 false.

Definition f32_div (x y : float32) : float32 := SFdiv f32_prec f32_emax x y.

Definition f32_zero : float32 := f32_of_Z 0.
Definition f32_one : float32 := f32_of_Z 1.

Definition is_nan (x : float32) : bool :=
  match x with S754_nan => true | _ => false end.

(** [0.0 <= x <= 1.0] *)
Definition in_unit_interval (x : float32) : bool :=
  SFleb f32_zero x && SFleb x f32_one.

(** An image as [cv2.imread] returns it with its default flag: a
    [uint8] array indexed by row, column and channel. *)
Abbreviation image := (list (list (list byte))) (only parsing).

(** The model's input: a [float32] array indexed by batch entry, row,
    column and channel. *)
Abbreviation tensor := (list (list (list (list spec_float)))) (only parsing).

(** The model's output: one array of scores per character slot, each
    read in flattened order, as [np.argmax] without [axis] reads it. *)
Abbreviation predictions := (list (list spec_float)) (only parsing).

Definition map3 {A B} (f : A -> B) (a : list (list (list A))) : list (list (list B)) :=
  map (map (map f)) a.

(** [a.shape == (d0, d1, d2)] *)
Definition has_shape3 {A} (a : list (list (list A))) (d0 d1 d2 : Z) : bool :=
  (Z.of_nat (length a) =? d0)
  && forallb (fun row =>
       (Z.of_nat (length row) =? d1)
       && forallb (fun px => Z.of_nat (length px) =? d2) row) a.

(** [t.shape == (d0, d1, d2, d3)] *)
Definition has_shape4 {A} (t : list (list (list (list A)))) (d0 d1 d2 d3 : Z) : bool :=
  (Z.of_nat (length t) =? d0) && forallb (fun a => has_shape3 a d1 d2 d3) t.

(** Every entry of a tensor satisfies [p]. *)
Definition tensor_all (p : float32 -> bool) (t : tensor) : bool :=
  forallb (forallb (forallb (forallb p))) t.

(** [img.astype(np.float32)] *)
Definition astype_float32 (img : image) : list (list (list float32)) :=
  map3 (fun b => f32_of_Z (Z.of_N (Byte.to_N b))) img.

(** [a / 255.0] on a [float32] array: the scalar is converted to
    [float32] (255 is exact there) and the division is elementwise. *)
Definition divide_255 (a : list (list (list float32))) : list (list (list float32)) :=
  map3 (fun x => f32_div x (f32_of_Z 255)) a.

(** [np.expand_dims(a, axis=0)] *)
Definition expand_dims0 (a : list (list (list float32))) : tensor := [a].

(** ** np.argmax *)

(** The scan of numpy's floating-point [argmax]: [mp] is the running
    maximum, [max_ind] its index, [i] the index of the head of [l].  An
    entry replaces the maximum when [not (x <= mp)]; a NaN counts as
    maximal and ends the scan. *)
Fixpoint argmax_from (mp : float32) (max_ind i : Z) (l : list float32) : Z :=
  match l with
  | [] => max_ind
  | x :: l' =>
      if negb (SFleb x mp) then
        if is_nan x then i else argmax_from x i (i + 1) l'
      else argmax_from mp max_ind (i + 1) l'
  end.

(** [np.argmax(a)]: index into the flattened array; [ValueError] on an
    empty one. *)
Definition np_argmax (a : list float32) : result Z :=
  match a with
  | [] => Raise (ValueError "attempt to get argmax of an empty sequence")
  | x :: l => Ret (if is_nan x then 0 else argmax_from x 0 1 l)
  end.

(** Away from NaN, [SFcompare] is the lexicographic comparison of a key
    made of the class of the number, its exponent and its mantissa; the
    order lemmas on [SFleb] and [SFltb] are read off that key. *)
Definition float_key (x : float32) : Z * Z * Z :=
  match x with
  | S754_zero _ => (0, 0, 0)
  | S754_infinity s => (if s then -2 else 2, 0, 0)
  | S754_nan => (0, 0, 0)
  | S754_finite s m e => if s then (-1, - e, Zneg m) else (1, e, Zpos m)
  end.

Definition key_compare (a b : Z * Z * Z) : comparison :=
  let '(a1, a2, a3) := a in
  let '(b1, b2, b3) := b in
  match a1 ?= b1 with
  | Eq => match a2 ?= b2 with Eq => a3 ?= b3 | c => c end
  | c => c
  end.

Definition key_lt (a b : Z * Z * Z) : Prop :=
  let '(a1, a2, a3) := a in
  let '(b1, b2, b3) := b in
  a1 < b1 \/ (a1 = b1 /\ (a2 < b2 \/ (a2 = b2 /\ a3 < b3))).

(** No entry of the array is NaN. *)
Definition nan_free (a : list float32) : bool :=
  forallb (fun x => negb (is_nan x)) a.

(** [i] is the position of the first maximum of [a]: the entry there is
    at least every entry and strictly above every earlier one. *)
Definition is_first_max (a : list float32) (i : Z) : Prop :=
  exists x,
    0 <= i /\ a !! Z.to_nat i = Some x /\
    (forall j y, a !! j = Some y -> SFleb y x = true) /\
    (forall j y, a !! j = Some y -> (j < Z.to_nat i)%nat -> SFltb y x = true).

(** ** The process: environment, trace and the monad of the script *)

(** The two complaints of [parser.error] that this parser can make. *)
Inductive argparse_error : Type :=
  | RequiredMissing (dest : string)
  | UnrecognizedArguments.

Inductive event : Type :=
  | EvPrint (text : pystr)                       (* print(text) *)
  | EvArgparseHelp                               (* argparse prints its help *)
  | EvArgparseError (err : argparse_error)       (* argparse: usage and error on stderr *)
  | EvSetEnv (key value : pystr)                 (* os.environ[key] = value *)
  | EvImport (module : string) (env : gmap pystr pystr)
                                                 (* import, with the environment it sees *)
  | EvLoadModel (path : pystr)                   (* tf.keras.models.load_model(path) *)
  | EvImread (path : pystr)                      (* cv2.imread(path) *)
  | EvPredict (verbose : Z).                     (* model.predict(..., verbose=verbose) *)

Record world : Type := World {
  environ : gmap pystr pystr;
  trace : list event   (* oldest first *)
}.

Definition Py (A : Type) : Type := world -> world * result A.

Definition ret {A} (a : A) : Py A := fun w => (w, Ret a).

Definition bind {A B} (m : Py A) (k : A -> Py B) : Py B :=
  fun w =>
    match m w with
    | (w', Ret a) => k a w'
    | (w', Exit n) => (w', Exit n)
    | (w', Raise e) => (w', Raise e)
    end.

Declare Scope py_scope.
Delimit Scope py_scope with py.
Notation "x <- m ;; k" := (bind m (fun x => k))
  (at level 100, m at next level, right associativity) : py_scope.
Notation "m ;; k" := (bind m (fun _ => k))
  (at level 100, right associativity) : py_scope.
Local Open Scope py_scope.

Definition lift {A} (r : result A) : Py A := fun w => (w, r).

Definition emit (e : event) : Py unit :=
  fun w => (World (environ w) (trace w ++ [e]), Ret tt).

(** [print(text)], for a text that standard output can encode. *)
Definition print (text : pystr) : Py unit := emit (EvPrint text).

Definition sys_exit {A} (status : Z) : Py A := fun w => (w, Exit status).

Definition setenv (key value : pystr) : Py unit :=
  fun w => (World (<[key := value]> (environ w)) (trace w ++ [EvSetEnv key value]), Ret tt).

(** [import tensorflow]: the library reads the environment when loaded. *)
Definition import_module (name : string) : Py unit :=
  fun w => (World (environ w) (trace w ++ [EvImport name (environ w)]), Ret tt).

(** Exit status of the process for the outcome of the script: an
    uncaught exception ends the interpreter with status 1. *)
Definition exit_status (r : result unit) : Z :=
  match r with
  | Ret _ => 0
  | Exit n => n
  | Raise _ => 1
  end.

(** [mapM] for list comprehensions whose body can raise. *)
Fixpoint traverse {A B} (f : A -> result B) (l : list A) : result (list B) :=
  match l with
  | [] => Ret []
  | x :: l' => rbind (f x) (fun y => rbind (traverse f l') (fun ys => Ret (y :: ys)))
  end.

(** ** The libraries the script calls *)

(** What the script takes from cv2 and Keras.  [cv2_imread] gives [None]
    for a file it cannot read; [cv2_resize img (w, h)] takes the target
    size as (width, height); loading a model and running it can raise. *)
Class External : Type := {
  model : Type;
  cv2_imread : pystr -> option image;
  cv2_resize : image -> Z * Z -> image;
  load_model : pystr -> result model;
  model_predict : model -> tensor -> Z -> result predictions
}.

(** cv2's contract for [resize] on the images [imread] returns: the
    result has [h] rows of [w] pixels and keeps the three channels. *)
Definition resize_honours_dsize (E : External) : Prop :=
  forall path img w h,
    cv2_imread path = Some img -> 0 < w -> 0 < h ->
    has_shape3 (cv2_resize img (w, h)) h w 3 = true.

Definition IMG_WIDTH : Z := 250.
Definition IMG_HEIGHT : Z := 50.
Definition MODEL_PATH : pystr := py "captcha_model.keras".

Section Script.
Context {E : External}.

(** ** preprocess_image (lines 15-23) *)

Definition imread (img_path : pystr) : Py (option image) :=
  emit (EvImread img_path) ;; ret (cv2_imread img_path).

Definition preprocess_image (img_path : pystr) : Py tensor :=
  img <- imread img_path ;;
  match img with
  | None =>
      print (py "Error: Image not found at " ++ img_path) ;;
      sys_exit 1
  | Some img =>
      let img := cv2_resize img (IMG_WIDTH, IMG_HEIGHT) in
      let img := divide_255 (astype_float32 img) in
      ret (expand_dims0 img)
  end.

(** What line 23 returns for a readable image: lines 21-23 composed. *)
Definition model_input (img : image) : tensor :=
  expand_dims0 (divide_255 (astype_float32 (cv2_resize img (IMG_WIDTH, IMG_HEIGHT)))).

(** ** predict_captcha (lines 34-39); the global [model] is a parameter *)

Definition predict (m : model) (img_input : tensor) (verbose : Z) : Py predictions :=
  emit (EvPredict verbose) ;; lift (model_predict m img_input verbose).

(** The index line 38 passes to [index_to_char] for one slot. *)
Definition slot_index (pred : list float32) : result Z := np_argmax pred.

(** Line 38: [[index_to_char(np.argmax(pred)) for pred in predictions]] *)
Definition decode_slots (preds : predictions) : result (list pystr) :=
  traverse (fun pred => rbind (slot_index pred) index_to_char) preds.

(** Lines 38-39 as a function of what [model.predict] returned. *)
Definition decode (preds : predictions) : result pystr :=
  rbind (decode_slots preds) (fun predicted_chars => Ret (concat predicted_chars)).

Definition predict_captcha (m : model) (img_path : pystr) (verbose : Z) : Py pystr :=
  img_input <- preprocess_image img_path ;;
  preds <- predict m img_input verbose ;;
  predicted_chars <- lift (decode_slots preds) ;;
  ret (concat predicted_chars).

End Script.

(** ** The command line (lines 43-47) *)

(** An argument string as argparse classifies it for the script's
    parser, which knows [-h]/[--help], [--verbose] and one positional. *)
Inductive token : Type :=
  | TokVerbose
  | TokHelp
  | TokPositional (s : pystr)
  | TokUnknown (s : pystr).

Definition pystr_eqb (a b : pystr) : bool := bool_decide (a = b).

Fixpoint is_prefix (a b : pystr) : bool :=
  match a, b with
  | [], _ => true
  | x :: a', y :: b' => (x =? y) && is_prefix a' b'
  | _ :: _, [] => false
  end.

Definition contains (c : Z) (a : pystr) : bool := existsb (Z.eqb c) a.

(** Classification of one argument string.  The empty string, a lone
    dash and anything not starting with a dash are positional; a long
    option is matched exactly or by an unambiguous prefix.  [None]
    stands for the forms left out here: the [--] separator, [--opt=value]
    and single-dash strings other than [-h]. *)
Definition classify (a : pystr) : option token :=
  match a with
  | [] => Some (TokPositional a)
  | c :: rest =>
      if negb (c =? ord "-") then Some (TokPositional a)
      else
        match rest with
        | [] => Some (TokPositional a)
        | c2 :: rest2 =>
            if c2 =? ord "-" then
              match rest2 with
              | [] => None
              | _ :: _ =>
                  if contains (ord "=") a then None
                  else if is_prefix a (py "--verbose") then Some TokVerbose
                  else if is_prefix a (py "--help") then Some TokHelp
                  else if contains (ord " ") a then Some (TokPositional a)
                  else Some (TokUnknown a)
              end
            else if pystr_eqb a (py "-h") then Some TokHelp
            else None
        end
  end.

(** [sys.argv[1:]] as tokens, when every string is of a modelled form. *)
Definition tokens_of_argv (args : list pystr) : option (list token) :=
  mapM classify args.

Record Namespace : Type := {
  verbose : bool;
  image_path : pystr
}.

Definition is_help (t : token) : bool :=
  match t with TokHelp => true | _ => false end.
Definition is_verbose (t : token) : bool :=
  match t with TokVerbose => true | _ => false end.
Definition is_unknown (t : token) : bool :=
  match t with TokUnknown _ => true | _ => false end.

Fixpoint positionals (toks : list token) : list pystr :=
  match toks with
  | [] => []
  | TokPositional s :: toks' => s :: positionals toks'
  | _ :: toks' => positionals toks'
  end.

(** [parser.parse_args()].  The help action exits with status 0 where
    it is met; a missing [image_path] and leftover arguments are reported
    after the scan, each through [parser.error], which exits with 2. *)
Definition parse_args (toks : list token) : Py Namespace :=
  if existsb is_help toks then
    emit EvArgparseHelp ;; sys_exit 0
  else
    match positionals toks with
    | [] =>
        emit (EvArgparseError (RequiredMissing "image_path")) ;;
        sys_exit 2
    | p :: extras =>
        if negb (bool_decide (extras = [])) || existsb is_unknown toks then
          emit (EvArgparseError UnrecognizedArguments) ;;
          sys_exit 2
        else
          ret {| verbose := existsb is_verbose toks; image_path := p |}
    end.

(** ** The script body (lines 42-61) *)

Section Main.
Context {E : External}.

Definition TF_CPP_MIN_LOG_LEVEL : pystr := py "TF_CPP_MIN_LOG_LEVEL".

(** [tf.keras.models.load_model(MODEL_PATH)] *)
Definition keras_load_model (path : pystr) : Py model :=
  emit (EvLoadModel path) ;; lift (load_model path).

(** Lines 49-61, with [args] the parsed command line. *)
Definition script_body (argv0 : pystr) (args : Namespace) : Py unit :=
  (if negb (verbose args) then setenv TF_CPP_MIN_LOG_LEVEL (py "3") else ret tt) ;;
  import_module "tensorflow" ;;
  (if bool_decide (image_path args = []) then
     print (py "Usage: " ++ argv0 ++ py " [--verbose] <image_path>") ;;
     sys_exit 1
   else ret tt) ;;
  m <- keras_load_model MODEL_PATH ;;
  predicted_text <- predict_captcha m (image_path args) (if verbose args then 1 else 0) ;;
  print predicted_text.

Definition main (argv0 : pystr) (toks : list token) : Py unit :=
  args <- parse_args toks ;;
  script_body argv0 args.

End Main.

(** A process starts with an empty trace. *)
Definition initial (env : gmap pystr pystr) : world := World env [].

(** Event predicates used in the statements below. *)
Definition is_load_model (e : event) : bool :=
  match e with EvLoadModel _ => true | _ => false end.
Definition is_imread (e : event) : bool :=
  match e with EvImread _ => true | _ => false end.
Definition is_predict (e : event) : bool :=
  match e with EvPredict _ => true | _ => false end.
Definition is_setenv (e : event) : bool :=
  match e with EvSetEnv _ _ => true | _ => false end.
Definition is_import (e : event) : bool :=
  match e with EvImport _ _ => true | _ => false end.
Definition is_print (e : event) : bool :=
  match e with EvPrint _ => true | _ => false end.

(** A code point of the ASCII range, which every encoding that Python
    uses for standard output can write. *)
Definition is_ascii (c : Z) : bool := (0 <=? c) && (c <? 128).

(** How many of the events are prints of the script. *)
Definition count_prints (evs : list event) : nat :=
  length (List.filter is_print evs).

(** Line 22 on one [uint8] value given as an integer. *)
Definition normalise (n : Z) : float32 := f32_div (f32_of_Z n) (f32_of_Z 255).

(** The check behind the order of normalised pixels: over all pairs of
    [uint8] values, a smaller value has a strictly smaller quotient. *)
Definition normalise_increasing : bool :=
  forallb (fun n =>
    forallb (fun m => implb (n <? m) (SFltb (normalise n) (normalise m)))
            (seqZ 0 256))
    (seqZ 0 256).

(** ** A concrete installation, for examples *)

(** A vector of [n] scores with 1.0 at position [k] and 0.0 elsewhere. *)
Definition one_hot (n k : Z) : list float32 :=
  map (fun i => if i =? k then f32_one else f32_zero) (seqZ 0 n).

(** Three slots: a certain 'c', a certain 'z', and a tie between the
    entries 1 and 2 of a short vector. *)
Definition demo_predictions : predictions :=
  [ one_hot 36 12;
    one_hot 36 35;
    [ f32_div (f32_of_Z 1) (f32_of_Z 4);
      f32_div (f32_of_Z 3) (f32_of_Z 8);
      f32_div (f32_of_Z 3) (f32_of_Z 8) ] ].

(** A one-pixel image. *)
Definition demo_image : image := [[[x00; x80; xff]]].

(** An installation in which only [captcha.png] is a readable image,
    resizing fills the target with the top-left pixel, the model file
    loads and the model answers [demo_predictions]. *)
Definition demo_external : External := {|
  model := unit;
  cv2_imread := fun path =>
    if bool_decide (path = py "captcha.png") then Some demo_image else None;
  cv2_resize := fun img dsize =>
    let px := nth 0 (nth 0 img []) [] in
    replicate (Z.to_nat (snd dsize)) (replicate (Z.to_nat (fst dsize)) px);
  load_model := fun _ => Ret tt;
  model_predict := fun _ _ _ => Ret demo_predictions
|}.

(** Another installation: every path is a readable white pixel,
    resizing returns the image as it is, and the model, of another
    type, gives the same answer. *)
Definition demo_external_other : External := {|
  model := bool;
  cv2_imread := fun _ => Some [[[xff; xff; xff]]];
  cv2_resize := fun img _ => img;
  load_model := fun _ => Ret true;
  model_predict := fun _ _ _ => Ret demo_predictions
|}.

(** Closes the case split on [--verbose] in the statements about the
    logging variable. *)
Ltac close_log_level args Heq Hseen :=
  cbn [fst environ trace];
  repeat match goal with |- _ /\ _ => split end;
  try exact Heq; try exact Hseen;
  rewrite <- ?app_assoc, ?existsb_app;
  destruct (verbose args);
  cbn [app existsb is_setenv is_import orb negb];
  rewrite ?existsb_app; cbn [app existsb is_setenv is_import orb negb];
  try reflexivity.

(** * Properties *)

(** ** index_to_char *)

Example index_to_char_7 : index_to_char 7 = Ret (py "7").
Proof. reflexivity. Qed.

Example index_to_char_12 : index_to_char 12 = Ret (py "c").
Proof. reflexivity. Qed.

Example index_to_char_negative : index_to_char (-3) = Ret (py "-3").
Proof. reflexivity. Qed.

Lemma index_to_char_digit (i : Z) :
  0 <= i <= 9 -> index_to_char i = Ret [ord "0" + i].
Proof.
  intros H.
  assert (Hc : i = 0 \/ i = 1 \/ i = 2 \/ i = 3 \/ i = 4 \/
               i = 5 \/ i = 6 \/ i = 7 \/ i = 8 \/ i = 9) by lia.
  repeat (destruct Hc as [-> | Hc]; [reflexivity |]).
  subst i. reflexivity.
Qed.

Lemma index_to_char_chr (i : Z) :
  10 <= i -> index_to_char i = chr (i - 10 + ord "a").
Proof.
  intros H. unfold index_to_char.
  destruct (i <? 10) eqn:Hlt; [apply Z.ltb_lt in Hlt; lia | reflexivity].
Qed.

Lemma chr_in_range (n : Z) : 0 <= n < 0x110000 -> chr n = Ret [n].
Proof.
  intros H. unfold chr.
  destruct (0 <=? n) eqn:H0; [| apply Z.leb_gt in H0; lia].
  destruct (n <? 0x110000) eqn:H1; [reflexivity | apply Z.ltb_ge in H1; lia].
Qed.

Lemma chr_out_of_range (n : Z) :
  0x110000 <= n -> chr n = Raise (ValueError "chr() arg not in range(0x110000)").
Proof.
  intros H. unfold chr.
  destruct (n <? 0x110000) eqn:H1; [apply Z.ltb_lt in H1; lia |].
  now rewrite andb_false_r.
Qed.

Lemma index_to_char_letter (i : Z) :
  10 <= i <= 1114024 -> index_to_char i = Ret [ord "a" + (i - 10)].
Proof.
  intros H. rewrite index_to_char_chr by lia.
  replace (i - 10 + ord "a") with (ord "a" + (i - 10)) by lia.
  apply chr_in_range. change (ord "a") with 97. lia.
Qed.

Lemma in_alphabet_spec (c : Z) :
  in_alphabet c = true <-> 48 <= c <= 57 \/ 97 <= c <= 122.
Proof.
  unfold in_alphabet, is_digit, is_lower.
  change (ord "0") with 48. change (ord "9") with 57.
  change (ord "a") with 97. change (ord "z") with 122.
  rewrite orb_true_iff, !andb_true_iff, !Z.leb_le. tauto.
Qed.

Lemma index_to_char_in_alphabet (i : Z) :
  0 <= i <= 35 -> exists c, index_to_char i = Ret [c] /\ in_alphabet c = true.
Proof.
  intros H. destruct (Z_lt_le_dec i 10) as [Hlt | Hge].
  - exists (ord "0" + i). split; [apply index_to_char_digit; lia |].
    apply in_alphabet_spec. change (ord "0") with 48. lia.
  - exists (ord "a" + (i - 10)). split; [apply index_to_char_letter; lia |].
    apply in_alphabet_spec. change (ord "a") with 97. lia.
Qed.

(** C2: on the indices 0 to 35 [index_to_char] always returns a
    one-character string of the alphabet and is injective; 0, 9, 10 and
    35 give '0', '9', 'a' and 'z'; an index up to 9 gives the digit at
    that offset from '0', an index from 10 the letter at offset
    [index - 10] from 'a'. *)
Theorem index_to_char_total_injective (i j : Z)
    (Hi : 0 <= i <= 35) (Hj : 0 <= j <= 35) :
  (exists c, index_to_char i = Ret [c] /\ in_alphabet c = true) /\
  (index_to_char i = index_to_char j -> i = j) /\
  index_to_char 0 = Ret (py "0") /\
  index_to_char 9 = Ret (py "9") /\
  index_to_char 10 = Ret (py "a") /\
  index_to_char 35 = Ret (py "z") /\
  (i <= 9 -> index_to_char i = Ret [ord "0" + i] /\ is_digit (ord "0" + i) = true) /\
  (10 <= i -> index_to_char i = Ret [ord "a" + (i - 10)] /\ is_lower (ord "a" + (i - 10)) = true).
Proof.
  split; [apply index_to_char_in_alphabet; exact Hi |].
  split.
  - intros Heq.
    destruct (Z_lt_le_dec i 10), (Z_lt_le_dec j 10);
      rewrite ?(index_to_char_digit i), ?(index_to_char_digit j),
              ?(index_to_char_letter i), ?(index_to_char_letter j) in Heq by lia;
      change (ord "0") with 48 in Heq; change (ord "a") with 97 in Heq;
      injection Heq as Heq; lia.
  - repeat (split; [reflexivity |]). split.
    + intros H. split; [apply index_to_char_digit; lia |].
      unfold is_digit. change (ord "0") with 48. change (ord "9") with 57.
      apply andb_true_iff. rewrite !Z.leb_le. lia.
    + intros H. split; [apply index_to_char_letter; lia |].
      unfold is_lower. change (ord "a") with 97. change (ord "z") with 122.
      apply andb_true_iff. rewrite !Z.leb_le. lia.
Qed.

Lemma index_to_char_total_injective_witness :
  0 <= 3 <= 35 /\ 0 <= 12 <= 35 /\
  index_to_char 3 = Ret (py "3") /\ index_to_char 12 = Ret (py "c") /\
  (index_to_char 3 = index_to_char 12 -> 3 = 12).
Proof.
  assert (H3 : 0 <= 3 <= 35) by lia.
  assert (H12 : 0 <= 12 <= 35) by lia.
  pose proof (index_to_char_total_injective 3 12 H3 H12) as (_ & Hinj & _).
  repeat split; solve [lia | reflexivity | exact Hinj].
Defined.

Lemma in_alphabet_single_iff (i : Z) :
  0 <= i ->
  (exists c, index_to_char i = Ret [c] /\ in_alphabet c = true) <-> i <= 35.
Proof.
  intros H0. split.
  - intros (c & Hc & Ha). apply in_alphabet_spec in Ha.
    destruct (Z_le_gt_dec i 35) as [Hle | Hgt]; [exact Hle | exfalso].
    destruct (Z_le_gt_dec i 1114024) as [Hin | Hout].
    + rewrite index_to_char_letter in Hc by lia.
      change (ord "a") with 97 in Hc. injection Hc as <-. lia.
    + rewrite index_to_char_chr, chr_out_of_range in Hc
        by (change (ord "a") with 97; lia).
      discriminate Hc.
  - intros Hle. apply index_to_char_in_alphabet. lia.
Qed.

(** C10, as the code has it: [index_to_char] validates nothing.  From
    index 36 up to 1114024 it returns [chr(index - 10 + ord('a'))], a
    character outside the alphabet; from 1114025 on [chr] raises and no
    character is returned, the exception being [ValueError] as long as
    the argument of [chr] fits a C int, that is up to index 2147483560;
    among the non-negative indices exactly 0 to 35 land in the
    alphabet. *)
Theorem index_to_char_beyond_alphabet (i : Z) (Hi : 0 <= i) :
  (36 <= i <= 1114024 ->
     index_to_char i = Ret [i - 10 + ord "a"] /\
     chr (i - 10 + ord "a") = Ret [i - 10 + ord "a"] /\
     in_alphabet (i - 10 + ord "a") = false) /\
  (1114025 <= i <= 2147483560 ->
     exists msg, index_to_char i = Raise (ValueError msg)) /\
  (1114025 <= i -> exists e, index_to_char i = Raise e) /\
  ((exists c, index_to_char i = Ret [c] /\ in_alphabet c = true) <-> i <= 35).
Proof.
  split; [| split; [| split]].
  - intros Hr.
    assert (Hchr : chr (i - 10 + ord "a") = Ret [i - 10 + ord "a"])
      by (apply chr_in_range; change (ord "a") with 97; lia).
    split; [rewrite index_to_char_chr by lia; exact Hchr |].
    split; [exact Hchr |].
    destruct (in_alphabet (i - 10 + ord "a")) eqn:Ha; [| reflexivity].
    apply in_alphabet_spec in Ha. change (ord "a") with 97 in Ha. lia.
  - intros Hr. eexists.
    rewrite index_to_char_chr by lia.
    apply chr_out_of_range. change (ord "a") with 97. lia.
  - intros Hr. eexists.
    rewrite index_to_char_chr by lia.
    apply chr_out_of_range. change (ord "a") with 97. lia.
  - apply in_alphabet_single_iff. exact Hi.
Qed.

Lemma index_to_char_beyond_alphabet_witness :
  0 <= 40 /\
  index_to_char 40 = Ret [127] /\ in_alphabet 127 = false.
Proof.
  assert (H0 : 0 <= 40) by lia.
  pose proof (index_to_char_beyond_alphabet 40 H0) as (Hmid & _ & _).
  assert (Hr : 36 <= 40 <= 1114024) by lia.
  destruct (Hmid Hr) as (Hv & _ & Ha).
  split; [exact H0 |]. split; [exact Hv | exact Ha].
Defined.

(** C10 as stated fails: at the non-negative index 1114025 the function
    returns no character, [chr(1114112)] raises [ValueError]. *)
Lemma index_to_char_not_total :
  0 <= 1114025 /\ 36 <= 1114025 /\
  index_to_char 1114025 = Raise (ValueError "chr() arg not in range(0x110000)") /\
  ~ (exists s, index_to_char 1114025 = Ret s).
Proof.
  split; [lia |]. split; [lia |]. split; [reflexivity |].
  intros (s & Hs). discriminate Hs.
Qed.

(** ** The order np.argmax compares with *)

Section FloatOrder.

Lemma SFcompare_key (a b : float32) :
  is_nan a = false -> is_nan b = false ->
  SFcompare a b = Some (key_compare (float_key a) (float_key b)).
Proof.
  destruct a as [[] | [] | | [] m1 e1], b as [[] | [] | | [] m2 e2];
    simpl; intros Ha Hb; try discriminate; try reflexivity.
  rewrite Z.compare_opp, (Z.compare_antisym e1 e2).
  destruct (e1 ?= e2); reflexivity.
Qed.

Lemma key_compare_Lt (a b : Z * Z * Z) : key_compare a b = Lt <-> key_lt a b.
Proof.
  destruct a as [[a1 a2] a3], b as [[b1 b2] b3]. unfold key_compare, key_lt.
  destruct (Z.compare_spec a1 b1), (Z.compare_spec a2 b2), (Z.compare_spec a3 b3);
    split; intros Hk; try discriminate; try reflexivity; try lia.
Qed.

Lemma key_compare_Gt (a b : Z * Z * Z) : key_compare a b = Gt <-> key_lt b a.
Proof.
  destruct a as [[a1 a2] a3], b as [[b1 b2] b3]. unfold key_compare, key_lt.
  destruct (Z.compare_spec a1 b1), (Z.compare_spec a2 b2), (Z.compare_spec a3 b3);
    split; intros Hk; try discriminate; try reflexivity; try lia.
Qed.

Lemma SFltb_key (a b : float32) :
  is_nan a = false -> is_nan b = false ->
  SFltb a b = true <-> key_lt (float_key a) (float_key b).
Proof.
  intros Ha Hb. unfold SFltb. rewrite SFcompare_key by assumption.
  rewrite <- key_compare_Lt.
  destruct (key_compare (float_key a) (float_key b)); split; congruence.
Qed.

Lemma SFleb_key (a b : float32) :
  is_nan a = false -> is_nan b = false ->
  SFleb a b = true <-> ~ key_lt (float_key b) (float_key a).
Proof.
  intros Ha Hb. unfold SFleb. rewrite SFcompare_key by assumption.
  rewrite <- key_compare_Gt.
  destruct (key_compare (float_key a) (float_key b)); split; congruence.
Qed.

Lemma key_lt_trans_le (a b c : Z * Z * Z) :
  ~ key_lt b a -> key_lt b c -> key_lt a c.
Proof.
  destruct a as [[a1 a2] a3], b as [[b1 b2] b3], c as [[c1 c2] c3].
  unfold key_lt. lia.
Qed.

Lemma key_le_trans (a b c : Z * Z * Z) :
  ~ key_lt b a -> ~ key_lt c b -> ~ key_lt c a.
Proof.
  destruct a as [[a1 a2] a3], b as [[b1 b2] b3], c as [[c1 c2] c3].
  unfold key_lt. lia.
Qed.

Lemma key_lt_irrefl (a : Z * Z * Z) : ~ key_lt a a.
Proof. destruct a as [[a1 a2] a3]. unfold key_lt. lia. Qed.

Lemma key_lt_asym (a b : Z * Z * Z) : key_lt a b -> ~ key_lt b a.
Proof.
  destruct a as [[a1 a2] a3], b as [[b1 b2] b3]. unfold key_lt. lia.
Qed.

(** [not (x <= mp)] means [mp < x] when neither is NaN. *)
Lemma SFleb_false_ltb (x mp : float32) :
  is_nan x = false -> is_nan mp = false ->
  SFleb x mp = false -> SFltb mp x = true.
Proof.
  intros Hx Hm Hle. apply SFltb_key; [assumption .. |].
  destruct (SFleb x mp) eqn:H; [discriminate |].
  assert (Hn : ~ (SFleb x mp = true)) by congruence.
  rewrite SFleb_key in Hn by assumption.
  destruct (key_compare (float_key mp) (float_key x)) eqn:Hc.
  - exfalso. apply Hn. intros Hlt. apply key_compare_Lt in Hlt. congruence.
  - apply key_compare_Lt. exact Hc.
  - exfalso. apply Hn. intros Hlt. apply key_compare_Lt in Hlt. congruence.
Qed.

Lemma SFleb_refl (x : float32) : is_nan x = false -> SFleb x x = true.
Proof. intros Hx. apply SFleb_key; [assumption .. | apply key_lt_irrefl]. Qed.

Lemma SFltb_leb (a b : float32) :
  is_nan a = false -> is_nan b = false -> SFltb a b = true -> SFleb a b = true.
Proof.
  intros Ha Hb H. apply SFleb_key; [assumption .. |].
  apply key_lt_asym. apply SFltb_key; assumption.
Qed.

Lemma SFleb_ltb_trans (a b c : float32) :
  is_nan a = false -> is_nan b = false -> is_nan c = false ->
  SFleb a b = true -> SFltb b c = true -> SFltb a c = true.
Proof.
  intros Ha Hb Hc Hab Hbc. apply SFltb_key; [assumption .. |].
  apply (key_lt_trans_le _ (float_key b)).
  - apply SFleb_key; assumption.
  - apply SFltb_key; assumption.
Qed.

End FloatOrder.

(** ** np.argmax returns the first maximum *)

Lemma nan_free_lookup (a : list float32) (j : nat) (y : float32) :
  nan_free a = true -> a !! j = Some y -> is_nan y = false.
Proof.
  unfold nan_free. rewrite forallb_forall. intros Hall Hj.
  apply negb_true_iff, Hall, list_elem_of_In, list_elem_of_lookup. eauto.
Qed.

Lemma nan_free_app (a b : list float32) :
  nan_free (a ++ b) = nan_free a && nan_free b.
Proof. apply forallb_app. Qed.

Lemma argmax_from_range (l : list float32) (mp : float32) (max_ind i : Z) :
  argmax_from mp max_ind i l = max_ind \/
  i <= argmax_from mp max_ind i l < i + Z.of_nat (length l).
Proof.
  revert mp max_ind i.
  induction l as [| x l IH]; intros mp max_ind i; simpl; [left; reflexivity |].
  destruct (negb (SFleb x mp)).
  - destruct (is_nan x); [right; lia |].
    destruct (IH x i (i + 1)) as [-> | Hr]; right; lia.
  - destruct (IH mp max_ind (i + 1)) as [-> | Hr]; [left; reflexivity | right; lia].
Qed.

Lemma np_argmax_range (a : list float32) :
  a <> [] -> exists i, np_argmax a = Ret i /\ 0 <= i < Z.of_nat (length a).
Proof.
  destruct a as [| x l]; [congruence | intros _].
  eexists. split; [reflexivity |]. simpl length.
  destruct (is_nan x); [lia |].
  destruct (argmax_from_range l x 0 1) as [-> | Hr]; lia.
Qed.

Lemma argmax_from_first_max (l pre : list float32) (mp : float32) (max_ind : Z) :
  nan_free (pre ++ l) = true ->
  0 <= max_ind ->
  pre !! Z.to_nat max_ind = Some mp ->
  (forall j y, pre !! j = Some y -> SFleb y mp = true) ->
  (forall j y, pre !! j = Some y -> (j < Z.to_nat max_ind)%nat -> SFltb y mp = true) ->
  is_first_max (pre ++ l) (argmax_from mp max_ind (Z.of_nat (length pre)) l).
Proof.
  revert pre mp max_ind.
  induction l as [| x l IH]; intros pre mp max_ind Hnan H0 Hmp Hle Hlt; simpl.
  - rewrite app_nil_r. exists mp. auto.
  - assert (Hx : is_nan x = false).
    { apply (nan_free_lookup (pre ++ x :: l) (length pre)); [exact Hnan |].
      now rewrite list_lookup_middle. }
    assert (Hm : is_nan mp = false).
    { apply (nan_free_lookup (pre ++ x :: l) (Z.to_nat max_ind)); [exact Hnan |].
      now apply lookup_app_l_Some. }
    assert (Hpre : forall j y, pre !! j = Some y -> is_nan y = false).
    { intros j y Hj. apply (nan_free_lookup (pre ++ x :: l) j); [exact Hnan |].
      now apply lookup_app_l_Some. }
    assert (Hlen : Z.of_nat (length pre) + 1 = Z.of_nat (length (pre ++ [x])))
      by (rewrite length_app; simpl; lia).
    assert (Happ : pre ++ x :: l = (pre ++ [x]) ++ l)
      by (rewrite <- app_assoc; reflexivity).
    rewrite Hx. rewrite Hlen, Happ.
    destruct (SFleb x mp) eqn:Hxm; simpl.
    + apply IH; [rewrite <- Happ; exact Hnan | exact H0 | | |].
      * now apply lookup_app_l_Some.
      * intros j y Hj. apply lookup_app_Some in Hj as [Hj | [Hge Hj]]; [eauto |].
        apply list_lookup_singleton_Some in Hj as [_ <-]. exact Hxm.
      * intros j y Hj Hjm.
        apply lookup_lt_Some in Hmp.
        apply lookup_app_Some in Hj as [Hj | [Hge Hj]]; [eauto | exfalso; lia].
    + assert (Hmx : SFltb mp x = true) by (apply SFleb_false_ltb; assumption).
      apply IH; [rewrite <- Happ; exact Hnan | lia | | |].
      * rewrite Nat2Z.id. now rewrite list_lookup_middle.
      * intros j y Hj. apply lookup_app_Some in Hj as [Hj | [Hge Hj]].
        -- apply SFltb_leb; [eauto | exact Hx |].
           apply (SFleb_ltb_trans y mp x); eauto.
        -- apply list_lookup_singleton_Some in Hj as [_ <-].
           now apply SFleb_refl.
      * rewrite Nat2Z.id. intros j y Hj Hjm.
        apply lookup_app_Some in Hj as [Hj | [Hge Hj]]; [| exfalso; lia].
        apply (SFleb_ltb_trans y mp x); eauto.
Qed.

Lemma np_argmax_first_max (a : list float32) :
  a <> [] -> nan_free a = true ->
  exists i, np_argmax a = Ret i /\ is_first_max a i.
Proof.
  destruct a as [| x l]; [congruence | intros _ Hnan].
  assert (Hx : is_nan x = false)
    by (apply (nan_free_lookup (x :: l) 0); [exact Hnan | reflexivity]).
  eexists. split; [reflexivity |]. rewrite Hx.
  apply (argmax_from_first_max l [x] x 0); [exact Hnan | lia | reflexivity | |].
  - intros j y Hj. apply list_lookup_singleton_Some in Hj as [_ <-].
    now apply SFleb_refl.
  - intros j y _ Hj. simpl in Hj. lia.
Qed.

Lemma traverse_rbind {A B C} (f : A -> result B) (g : B -> result C)
    (l : list A) (ys : list B) :
  traverse f l = Ret ys ->
  traverse (fun x => rbind (f x) g) l = traverse g ys.
Proof.
  revert ys. induction l as [| x l IH]; intros ys H; simpl in *.
  - injection H as <-. reflexivity.
  - destruct (f x) as [y | n | e]; simpl in H; try discriminate.
    destruct (traverse f l) as [ys' | n | e]; simpl in H; try discriminate.
    injection H as <-. simpl. rewrite (IH ys' eq_refl). reflexivity.
Qed.

(** C6: for every slot whose scores are a non-empty, NaN-free array,
    the index the decoder hands to [index_to_char] is the position of
    the maximum, and of its first occurrence when the maximum is tied:
    every entry is at most the selected one and every earlier entry is
    strictly below it. *)
Theorem decoder_selects_first_maximum (preds : predictions)
    (Hslots : Forall (fun pred => pred <> [] /\ nan_free pred = true) preds) :
  exists idxs,
    traverse slot_index preds = Ret idxs /\
    decode_slots preds = traverse index_to_char idxs /\
    Forall2 is_first_max preds idxs.
Proof.
  assert (H : exists idxs, traverse slot_index preds = Ret idxs /\
                           Forall2 is_first_max preds idxs).
  { induction Hslots as [| pred preds [Hne Hnan] _ (idxs & Ht & Hall)].
    - exists []. split; [reflexivity | constructor].
    - destruct (np_argmax_first_max pred Hne Hnan) as (i & Hi & Hmax).
      exists (i :: idxs). split; [| constructor; assumption].
      simpl. unfold slot_index at 1. rewrite Hi. simpl. rewrite Ht. reflexivity. }
  destruct H as (idxs & Ht & Hall). exists idxs.
  split; [exact Ht |]. split; [| exact Hall].
  apply traverse_rbind. exact Ht.
Qed.

Example demo_slot_indices : traverse slot_index demo_predictions = Ret [12; 35; 1].
Proof. vm_compute. reflexivity. Qed.

Lemma decoder_selects_first_maximum_witness :
  Forall (fun pred => pred <> [] /\ nan_free pred = true) demo_predictions /\
  exists idxs,
    traverse slot_index demo_predictions = Ret idxs /\
    decode_slots demo_predictions = traverse index_to_char idxs /\
    Forall2 is_first_max demo_predictions idxs.
Proof.
  assert (H : Forall (fun pred => pred <> [] /\ nan_free pred = true) demo_predictions).
  { repeat constructor; solve [discriminate | vm_compute; reflexivity]. }
  exact (conj H (decoder_selects_first_maximum demo_predictions H)).
Defined.

(** ** predict_captcha on a readable image *)

Lemma slot_char_in_alphabet (pred : list float32) :
  (0 < length pred <= 36)%nat ->
  exists c, rbind (slot_index pred) index_to_char = Ret [c] /\ in_alphabet c = true.
Proof.
  intros Hlen.
  assert (Hne : pred <> []) by (destruct pred; [simpl in Hlen; lia | discriminate]).
  destruct (np_argmax_range pred Hne) as (i & Hi & Hr).
  destruct (index_to_char_in_alphabet i) as (c & Hc & Ha); [lia |].
  exists c. unfold slot_index. rewrite Hi. simpl. auto.
Qed.

Lemma decode_slots_in_alphabet (preds : predictions) :
  Forall (fun pred => (0 < length pred <= 36)%nat) preds ->
  exists s : pystr,
    decode_slots preds = Ret (map (fun c => [c]) s) /\
    Forall2 (fun pred c =>
               rbind (slot_index pred) index_to_char = Ret [c] /\
               in_alphabet c = true) preds s.
Proof.
  induction 1 as [| pred preds Hlen _ (s & Hs & Hall)].
  - exists []. split; [reflexivity | constructor].
  - destruct (slot_char_in_alphabet pred Hlen) as (c & Hc & Ha).
    exists (c :: s). split; [| constructor; auto].
    unfold decode_slots in *. simpl. rewrite Hc. simpl. rewrite Hs. reflexivity.
Qed.

Lemma concat_singletons (s : pystr) : concat (map (fun c => [c]) s) = s.
Proof. induction s as [| c s IH]; simpl; [| rewrite IH]; reflexivity. Qed.

Lemma predict_captcha_readable `{E : External} (m : model) (img_path : pystr)
    (verbose : Z) (w : world) (img : image) :
  cv2_imread img_path = Some img ->
  predict_captcha m img_path verbose w =
    (let w1 := World (environ w) ((trace w ++ [EvImread img_path]) ++ [EvPredict verbose]) in
     match model_predict m (model_input img) verbose with
     | Ret preds => (w1, rbind (decode_slots preds) (fun chars => Ret (concat chars)))
     | Exit n => (w1, Exit n)
     | Raise e => (w1, Raise e)
     end).
Proof.
  intros Himg.
  unfold predict_captcha, preprocess_image, imread, predict, bind, emit, ret, lift.
  simpl. rewrite Himg. simpl. fold (model_input img).
  destruct (model_predict m (model_input img) verbose) as [preds | n | e]; try reflexivity.
  destruct (decode_slots preds); reflexivity.
Qed.

(** C1: when the image is readable and the model answers with one
    score vector per slot, each of at least one and at most 36 entries,
    [predict_captcha] returns a string with exactly one character per
    slot, in slot order the character [index_to_char] gives for that
    slot's argmax, and every character is in [0-9a-z]. *)
Theorem predict_captcha_decodes_alphabet `{E : External} (m : model)
    (img_path : pystr) (verbose : Z) (w : world) (img : image) (preds : predictions)
    (Himg : cv2_imread img_path = Some img)
    (Hpred : model_predict m (model_input img) verbose = Ret preds)
    (Hslots : Forall (fun pred => (0 < length pred <= 36)%nat) preds) :
  exists s : pystr,
    snd (predict_captcha m img_path verbose w) = Ret s /\
    length s = length preds /\
    forallb in_alphabet s = true /\
    Forall2 (fun pred c => rbind (slot_index pred) index_to_char = Ret [c]) preds s.
Proof.
  destruct (decode_slots_in_alphabet preds Hslots) as (s & Hs & Hall).
  exists s. rewrite (predict_captcha_readable m img_path verbose w img Himg), Hpred.
  simpl. rewrite Hs. simpl. rewrite concat_singletons.
  split; [reflexivity |]. split; [| split].
  - symmetry. eapply Forall2_length. exact Hall.
  - apply forallb_forall. intros c Hc.
    apply list_elem_of_In, list_elem_of_lookup in Hc as (k & Hk).
    destruct (Forall2_lookup_r _ _ _ _ _ Hall Hk) as (pred & _ & _ & Ha).
    exact Ha.
  - eapply Forall2_impl; [exact Hall |]. intros pred c [Hc _]. exact Hc.
Qed.

Lemma predict_captcha_decodes_alphabet_witness :
  let E := demo_external in
  cv2_imread (py "captcha.png") = Some demo_image /\
  Forall (fun pred => (0 < length pred <= 36)%nat) demo_predictions /\
  exists s : pystr,
    snd (predict_captcha tt (py "captcha.png") 0 (initial ∅)) = Ret s /\
    length s = length demo_predictions /\
    forallb in_alphabet s = true /\
    Forall2 (fun pred c => rbind (slot_index pred) index_to_char = Ret [c])
            demo_predictions s.
Proof.
  intros E.
  assert (Himg : cv2_imread (py "captcha.png") = Some demo_image) by reflexivity.
  assert (Hslots : Forall (fun pred => (0 < length pred <= 36)%nat) demo_predictions).
  { repeat constructor; vm_compute; lia. }
  split; [exact Himg |]. split; [exact Hslots |].
  exact (@predict_captcha_decodes_alphabet E tt (py "captcha.png") 0 (initial ∅)
           demo_image demo_predictions Himg eq_refl Hslots).
Defined.

Example demo_predict_captcha :
  snd (@predict_captcha demo_external tt (py "captcha.png") 0 (initial ∅)) = Ret (py "cz1").
Proof. vm_compute. reflexivity. Qed.

(** ** An image that cannot be read *)

Lemma predict_captcha_unreadable `{E : External} (m : model) (img_path : pystr)
    (verbose : Z) (w : world) :
  cv2_imread img_path = None ->
  predict_captcha m img_path verbose w =
    (World (environ w)
       (trace w ++ [EvImread img_path;
                    EvPrint (py "Error: Image not found at " ++ img_path)]),
     Exit 1).
Proof.
  intros Himg.
  unfold predict_captcha, preprocess_image, imread, print, sys_exit, bind, emit, ret.
  simpl. rewrite Himg. simpl. rewrite <- app_assoc. reflexivity.
Qed.

(** The run of lines 49-61, step by step. *)
Lemma script_body_run `{E : External} (argv0 : pystr) (args : Namespace) (w : world) :
  script_body argv0 args w =
    (let env1 := if verbose args then environ w
                 else <[TF_CPP_MIN_LOG_LEVEL := py "3"]> (environ w) in
     let tr1 := trace w
                ++ (if verbose args then [] else [EvSetEnv TF_CPP_MIN_LOG_LEVEL (py "3")])
                ++ [EvImport "tensorflow" env1] in
     if bool_decide (image_path args = []) then
       (World env1 (tr1 ++ [EvPrint (py "Usage: " ++ argv0 ++ py " [--verbose] <image_path>")]),
        Exit 1)
     else
       let w2 := World env1 (tr1 ++ [EvLoadModel MODEL_PATH]) in
       match load_model MODEL_PATH with
       | Ret m =>
           match predict_captcha m (image_path args) (if verbose args then 1 else 0) w2 with
           | (w3, Ret text) => (World (environ w3) (trace w3 ++ [EvPrint text]), Ret tt)
           | (w3, Exit n) => (w3, Exit n)
           | (w3, Raise e) => (w3, Raise e)
           end
       | Exit n => (w2, Exit n)
       | Raise e => (w2, Raise e)
       end).
Proof.
  unfold script_body, keras_load_model, setenv, import_module, print, sys_exit,
    bind, emit, ret, lift.
  destruct (verbose args); simpl;
    rewrite <- ?app_assoc; simpl;
    destruct (bool_decide (image_path args = [])); simpl;
    rewrite <- ?app_assoc; simpl; try reflexivity;
    destruct (load_model MODEL_PATH) as [m | n | e]; try reflexivity.
Qed.

(** C3: when [cv2.imread] cannot read the path, [predict_captcha]
    prints "Error: Image not found at " followed by the path and raises
    [SystemExit(1)]; the only events are the read attempt and that
    print, so [model.predict] is not called.  Run from the script with
    the model loaded, the process ends with status 1. *)
Theorem unreadable_image_exits `{E : External} (img_path : pystr)
    (Himg : cv2_imread img_path = None) :
  (forall m verbose w,
     exists w',
       predict_captcha m img_path verbose w = (w', Exit 1) /\
       environ w' = environ w /\
       trace w' = trace w ++ [EvImread img_path;
                              EvPrint (py "Error: Image not found at " ++ img_path)] /\
       existsb is_predict [EvImread img_path;
                           EvPrint (py "Error: Image not found at " ++ img_path)] = false) /\
  (forall argv0 args w m,
     image_path args = img_path -> img_path <> [] ->
     load_model MODEL_PATH = Ret m ->
     exists w' new,
       script_body argv0 args w = (w', Exit 1) /\
       exit_status (snd (script_body argv0 args w)) = 1 /\
       trace w' = trace w ++ new /\
       last new = Some (EvPrint (py "Error: Image not found at " ++ img_path)) /\
       existsb is_predict new = false).
Proof.
  split.
  - intros m verbose w. eexists. split; [apply predict_captcha_unreadable; exact Himg |].
    simpl. auto.
  - intros argv0 args w m Hpath Hne Hload.
    rewrite script_body_run. simpl.
    rewrite bool_decide_eq_false_2 by congruence.
    rewrite Hload, Hpath, predict_captcha_unreadable by exact Himg. simpl.
    eexists. eexists. split; [reflexivity |]. split; [reflexivity |].
    split; [rewrite <- !app_assoc; reflexivity |].
    destruct (verbose args); simpl; auto.
Qed.

Lemma unreadable_image_exits_witness :
  let E := demo_external in
  cv2_imread (py "/no/such/file.png") = None /\
  predict_captcha tt (py "/no/such/file.png") 0 (initial ∅) =
    (World ∅ [EvImread (py "/no/such/file.png");
              EvPrint (py "Error: Image not found at /no/such/file.png")],
     Exit 1).
Proof.
  intros E.
  assert (Himg : cv2_imread (py "/no/such/file.png") = None) by reflexivity.
  split; [exact Himg |].
  destruct (proj1 (@unreadable_image_exits E (py "/no/such/file.png") Himg)
              tt 0 (initial ∅)) as (w' & Hrun & Henv & Htr & _).
  rewrite Hrun. destruct w' as [env tr]. simpl in Henv, Htr. subst env tr.
  reflexivity.
Defined.

(** ** The command line *)

Example argv_empty : tokens_of_argv [] = Some [].
Proof. reflexivity. Qed.

Example argv_verbose_path :
  tokens_of_argv [py "--verbose"; py "captcha.png"]
  = Some [TokVerbose; TokPositional (py "captcha.png")].
Proof. reflexivity. Qed.

Example argv_empty_string : tokens_of_argv [py ""] = Some [TokPositional []].
Proof. reflexivity. Qed.

Example argv_abbreviated : tokens_of_argv [py "--verb"; py "-h"; py "--quiet"]
  = Some [TokVerbose; TokHelp; TokUnknown (py "--quiet")].
Proof. reflexivity. Qed.

Lemma parse_args_ret (toks : list token) (w : world) (args : Namespace) :
  snd (parse_args toks w) = Ret args ->
  parse_args toks w = (w, Ret args) /\
  positionals toks = [image_path args] /\
  verbose args = existsb is_verbose toks.
Proof.
  unfold parse_args, bind, emit, sys_exit, ret.
  destruct (existsb is_help toks); simpl; [discriminate |].
  destruct (positionals toks) as [| p extras]; simpl; [discriminate |].
  destruct (bool_decide (extras = [])) eqn:Hex; simpl; [| discriminate].
  destruct (existsb is_unknown toks); simpl; [discriminate |].
  intros H. injection H as <-. simpl.
  apply bool_decide_eq_true in Hex. subst extras. auto.
Qed.

(** Without a positional argument [parse_args] ends the process itself,
    with status 0 after [-h] and with status 2 otherwise; the script
    body never starts. *)
Lemma parse_args_no_positional (toks : list token) (w : world) :
  positionals toks = [] ->
  parse_args toks w =
    if existsb is_help toks
    then (World (environ w) (trace w ++ [EvArgparseHelp]), Exit 0)
    else (World (environ w)
            (trace w ++ [EvArgparseError (RequiredMissing "image_path")]), Exit 2).
Proof.
  intros Hpos. unfold parse_args, bind, emit, sys_exit.
  destruct (existsb is_help toks); [reflexivity |]. rewrite Hpos. reflexivity.
Qed.

Lemma main_no_positional `{E : External} (argv0 : pystr) (toks : list token) (w : world) :
  positionals toks = [] ->
  main argv0 toks w =
    (if existsb is_help toks
     then (World (environ w) (trace w ++ [EvArgparseHelp]), Exit 0)
     else (World (environ w)
             (trace w ++ [EvArgparseError (RequiredMissing "image_path")]), Exit 2)) /\
  exit_status (snd (main argv0 toks w)) <> 1.
Proof.
  intros Hpos. unfold main, bind.
  rewrite (parse_args_no_positional toks w Hpos).
  destruct (existsb is_help toks); simpl; split; (reflexivity || lia).
Qed.

(** C4, at the failing input: run with no argument at all, the script
    leaves through argparse's own error, with exit status 2 and not 1,
    after argparse's message and before anything else happens (no
    import of tensorflow, no model load). *)
Theorem missing_image_path_exits_2 `{E : External} (argv0 : pystr)
    (env : gmap (list Z) (list Z)) :
  tokens_of_argv [] = Some [] /\
  main argv0 [] (initial env) =
    (World env [EvArgparseError (RequiredMissing "image_path")], Exit 2) /\
  exit_status (snd (main argv0 [] (initial env))) = 2 /\
  existsb is_load_model (trace (fst (main argv0 [] (initial env)))) = false.
Proof. repeat split. Qed.

(** C9: when the command line parses and the positional is the empty
    string, the script prints its usage line and raises [SystemExit(1)];
    by then tensorflow has been imported, and no model load, image read
    or inference is among the events. *)
Theorem empty_image_path_usage `{E : External} (argv0 : pystr) (toks : list token)
    (w : world) (args : Namespace)
    (Hparse : snd (parse_args toks w) = Ret args)
    (Hempty : image_path args = []) :
  exists w' new,
    main argv0 toks w = (w', Exit 1) /\
    exit_status (snd (main argv0 toks w)) = 1 /\
    trace w' = trace w ++ new /\
    last new = Some (EvPrint (py "Usage: " ++ argv0 ++ py " [--verbose] <image_path>")) /\
    existsb is_load_model new = false /\
    existsb is_imread new = false /\
    existsb is_predict new = false.
Proof.
  apply parse_args_ret in Hparse as (Hrun & _ & _).
  unfold main, bind. rewrite Hrun, script_body_run. simpl.
  rewrite bool_decide_eq_true_2 by exact Hempty. simpl.
  eexists. eexists. split; [reflexivity |]. split; [reflexivity |].
  split; [rewrite <- !app_assoc; reflexivity |].
  destruct (verbose args); simpl; auto.
Qed.

Lemma empty_image_path_usage_witness :
  let E := demo_external in
  tokens_of_argv [py ""] = Some [TokPositional []] /\
  snd (parse_args [TokPositional []] (initial ∅))
    = Ret {| verbose := false; image_path := [] |} /\
  snd (main (py "solve_captcha.py") [TokPositional []] (initial ∅)) = Exit 1.
Proof.
  intros E. split; [reflexivity |]. split; [reflexivity |].
  destruct (@empty_image_path_usage E (py "solve_captcha.py") [TokPositional []]
              (initial ∅) {| verbose := false; image_path := [] |} eq_refl eq_refl)
    as (w' & new & Hrun & _).
  rewrite Hrun. reflexivity.
Defined.

Example demo_empty_image_path :
  @main demo_external (py "solve_captcha.py") [TokPositional []] (initial ∅) =
    (World {[ TF_CPP_MIN_LOG_LEVEL := py "3" ]}
       [EvSetEnv TF_CPP_MIN_LOG_LEVEL (py "3");
        EvImport "tensorflow" {[ TF_CPP_MIN_LOG_LEVEL := py "3" ]};
        EvPrint (py "Usage: solve_captcha.py [--verbose] <image_path>")],
     Exit 1).
Proof. reflexivity. Qed.

(** ** The logging variable and the import *)

(** [predict_captcha] leaves the environment alone and neither sets a
    variable nor imports anything. *)
Lemma predict_captcha_events `{E : External} (m : model) (img_path : pystr)
    (verbose : Z) (w : world) :
  exists post,
    fst (predict_captcha m img_path verbose w) = World (environ w) (trace w ++ post) /\
    existsb is_setenv post = false /\
    existsb is_import post = false.
Proof.
  destruct (cv2_imread img_path) as [img |] eqn:Himg.
  - rewrite (predict_captcha_readable m img_path verbose w img Himg).
    exists [EvImread img_path; EvPredict verbose].
    rewrite <- app_assoc.
    destruct (model_predict m (model_input img) verbose); simpl; auto.
  - rewrite (predict_captcha_unreadable m img_path verbose w Himg). simpl. eauto.
Qed.

(** C8: once the command line has parsed, the script assigns "3" to
    [TF_CPP_MIN_LOG_LEVEL] exactly when [--verbose] is absent; the
    assignment, when made, is the event just before the one import of
    tensorflow, nothing is assigned after it, and the environment the
    import sees holds "3" for the variable without [--verbose] and is
    the process's initial environment with it. *)
Theorem log_level_set_before_import `{E : External} (argv0 : pystr)
    (args : Namespace) (w : world) :
  exists pre env_seen post,
    trace (fst (script_body argv0 args w))
      = trace w ++ pre ++ EvImport "tensorflow" env_seen :: post /\
    pre = (if verbose args then [] else [EvSetEnv TF_CPP_MIN_LOG_LEVEL (py "3")]) /\
    existsb is_setenv (pre ++ EvImport "tensorflow" env_seen :: post)
      = negb (verbose args) /\
    existsb is_setenv post = false /\
    existsb is_import post = false /\
    env_seen = (if verbose args then environ w
                else <[TF_CPP_MIN_LOG_LEVEL := py "3"]> (environ w)) /\
    (if verbose args then env_seen = environ w
     else env_seen !! TF_CPP_MIN_LOG_LEVEL = Some (py "3")).
Proof.
  rewrite script_body_run; cbv zeta.
  set (env1 := if verbose args then environ w
               else <[TF_CPP_MIN_LOG_LEVEL := py "3"]> (environ w)).
  assert (Heq : env1 = if verbose args then environ w
                       else <[TF_CPP_MIN_LOG_LEVEL := py "3"]> (environ w))
    by reflexivity.
  assert (Hseen : if verbose args then env1 = environ w
                  else env1 !! TF_CPP_MIN_LOG_LEVEL = Some (py "3")).
  { subst env1. destruct (verbose args); [reflexivity | apply lookup_insert_eq]. }
  clearbody env1.
  destruct (bool_decide (image_path args = [])).
  - exists (if verbose args then [] else [EvSetEnv TF_CPP_MIN_LOG_LEVEL (py "3")]),
      env1, [EvPrint (py "Usage: " ++ argv0 ++ py " [--verbose] <image_path>")].
    close_log_level args Heq Hseen.
  - destruct (load_model MODEL_PATH) as [m | n | e].
    + match goal with |- context [predict_captcha m ?p ?v ?w0] =>
        destruct (predict_captcha_events m p v w0) as (post & Hw & Hs & Hi);
        destruct (predict_captcha m p v w0) as [w3 [text | n | e]]
      end; cbn [fst environ trace] in Hw; subst w3.
      * exists (if verbose args then [] else [EvSetEnv TF_CPP_MIN_LOG_LEVEL (py "3")]),
          env1, (EvLoadModel MODEL_PATH :: post ++ [EvPrint text]).
        close_log_level args Heq Hseen; rewrite ?Hs, ?Hi; reflexivity.
      * exists (if verbose args then [] else [EvSetEnv TF_CPP_MIN_LOG_LEVEL (py "3")]),
          env1, (EvLoadModel MODEL_PATH :: post).
        close_log_level args Heq Hseen; rewrite ?Hs, ?Hi; reflexivity.
      * exists (if verbose args then [] else [EvSetEnv TF_CPP_MIN_LOG_LEVEL (py "3")]),
          env1, (EvLoadModel MODEL_PATH :: post).
        close_log_level args Heq Hseen; rewrite ?Hs, ?Hi; reflexivity.
    + exists (if verbose args then [] else [EvSetEnv TF_CPP_MIN_LOG_LEVEL (py "3")]),
        env1, [EvLoadModel MODEL_PATH].
      close_log_level args Heq Hseen.
    + exists (if verbose args then [] else [EvSetEnv TF_CPP_MIN_LOG_LEVEL (py "3")]),
        env1, [EvLoadModel MODEL_PATH].
      close_log_level args Heq Hseen.
Qed.

(** ** preprocess_image *)

(** Each of the 256 [uint8] values, converted to [float32] and divided
    by 255, lands in the unit interval. *)
Lemma byte_normalised (b : byte) :
  in_unit_interval (f32_div (f32_of_Z (Z.of_N (Byte.to_N b))) (f32_of_Z 255)) = true.
Proof. destruct b; vm_compute; reflexivity. Qed.

Example normalise_0 : f32_div (f32_of_Z 0) (f32_of_Z 255) = f32_zero.
Proof. vm_compute. reflexivity. Qed.

Example normalise_255 : f32_div (f32_of_Z 255) (f32_of_Z 255) = f32_one.
Proof. vm_compute. reflexivity. Qed.

Lemma forallb_map_eq {A B} (p : B -> bool) (f : A -> B) (l : list A) :
  forallb p (map f l) = forallb (fun x => p (f x)) l.
Proof. induction l as [| x l IH]; simpl; [| rewrite IH]; reflexivity. Qed.

Lemma forallb_ext_eq {A} (p q : A -> bool) (l : list A) :
  (forall x, p x = q x) -> forallb p l = forallb q l.
Proof. intros H. induction l as [| x l IH]; simpl; [| rewrite H, IH]; reflexivity. Qed.

Lemma forallb_always {A} (p : A -> bool) (l : list A) :
  (forall x, p x = true) -> forallb p l = true.
Proof. intros H. induction l as [| x l IH]; simpl; [| rewrite H, IH]; reflexivity. Qed.

Lemma has_shape3_map3 {A B} (f : A -> B) (a : list (list (list A))) (d0 d1 d2 : Z) :
  has_shape3 (map3 f a) d0 d1 d2 = has_shape3 a d0 d1 d2.
Proof.
  unfold has_shape3, map3. rewrite length_map, forallb_map_eq. f_equal.
  apply forallb_ext_eq. intros row.
  rewrite length_map, forallb_map_eq. f_equal.
  apply forallb_ext_eq. intros px. now rewrite length_map.
Qed.

Lemma normalised_in_unit_interval (img : image) :
  forallb (forallb (forallb in_unit_interval)) (divide_255 (astype_float32 img)) = true.
Proof.
  unfold divide_255, astype_float32, map3.
  rewrite !map_map, forallb_map_eq. apply forallb_always. intros row.
  rewrite !map_map, forallb_map_eq. apply forallb_always. intros px.
  rewrite !map_map, forallb_map_eq. apply forallb_always. intros b.
  apply byte_normalised.
Qed.

(** C5: provided [cv2.resize] honours the size it is asked for, every
    readable image, whatever its own size, comes out of
    [preprocess_image] as the whole image resized to width 250 and
    height 50, converted and divided by 255: a tensor of shape
    (1, 50, 250, 3) whose entries all lie in [0.0, 1.0]. *)
Theorem preprocess_image_shape_and_range `{E : External}
    (Hresize : resize_honours_dsize E)
    (img_path : pystr) (img : image) (w : world)
    (Himg : cv2_imread img_path = Some img) :
  exists t : tensor,
    snd (preprocess_image img_path w) = Ret t /\
    t = [divide_255 (astype_float32 (cv2_resize img (250, 50)))] /\
    has_shape3 (cv2_resize img (250, 50)) 50 250 3 = true /\
    has_shape4 t 1 50 250 3 = true /\
    tensor_all in_unit_interval t = true.
Proof.
  exists (model_input img).
  split.
  { unfold preprocess_image, imread, bind, emit, ret. simpl. rewrite Himg. reflexivity. }
  split; [reflexivity |].
  assert (Hs : has_shape3 (cv2_resize img (250, 50)) 50 250 3 = true)
    by (apply (Hresize img_path img 250 50 Himg); lia).
  split; [exact Hs |]. split.
  - unfold has_shape4, model_input, expand_dims0, divide_255, astype_float32.
    cbn [length forallb]. rewrite !has_shape3_map3.
    change (cv2_resize img (IMG_WIDTH, IMG_HEIGHT)) with (cv2_resize img (250, 50)).
    rewrite Hs. reflexivity.
  - unfold tensor_all, model_input, expand_dims0. cbn [forallb].
    rewrite normalised_in_unit_interval. reflexivity.
Qed.

Lemma has_shape3_replicate {A} (n m : nat) (px : list A) :
  has_shape3 (replicate n (replicate m px))
    (Z.of_nat n) (Z.of_nat m) (Z.of_nat (length px)) = true.
Proof.
  unfold has_shape3. rewrite length_replicate, Z.eqb_refl. simpl.
  apply forallb_forall. intros row Hrow.
  apply list_elem_of_In, elem_of_replicate in Hrow as [-> _].
  rewrite length_replicate, Z.eqb_refl. simpl.
  apply forallb_forall. intros p Hp.
  apply list_elem_of_In, elem_of_replicate in Hp as [-> _].
  apply Z.eqb_refl.
Qed.

Lemma demo_resize_honours_dsize : resize_honours_dsize demo_external.
Proof.
  intros path img w h Himg Hw Hh. simpl in Himg.
  destruct (bool_decide (path = py "captcha.png")); [| discriminate].
  injection Himg as <-. cbn [cv2_resize demo_external fst snd].
  change (nth 0 (nth 0 demo_image []) []) with [x00; x80; xff].
  pose proof (has_shape3_replicate (Z.to_nat h) (Z.to_nat w) [x00; x80; xff]) as H.
  rewrite !Z2Nat.id in H by lia. exact H.
Qed.

Lemma preprocess_image_shape_and_range_witness :
  let E := demo_external in
  resize_honours_dsize E /\
  cv2_imread (py "captcha.png") = Some demo_image /\
  exists t : tensor,
    snd (preprocess_image (py "captcha.png") (initial ∅)) = Ret t /\
    t = [divide_255 (astype_float32 (cv2_resize demo_image (250, 50)))] /\
    has_shape3 (cv2_resize demo_image (250, 50)) 50 250 3 = true /\
    has_shape4 t 1 50 250 3 = true /\
    tensor_all in_unit_interval t = true.
Proof.
  intros E.
  assert (Himg : cv2_imread (py "captcha.png") = Some demo_image) by reflexivity.
  split; [exact demo_resize_honours_dsize |]. split; [exact Himg |].
  exact (@preprocess_image_shape_and_range E demo_resize_honours_dsize
           (py "captcha.png") demo_image (initial ∅) Himg).
Defined.

(** ** Decoding depends on the predictions alone *)

Lemma predict_captcha_decode `{E : External} (m : model) (img_path : pystr)
    (verbose : Z) (w : world) (img : image) (preds : predictions) :
  cv2_imread img_path = Some img ->
  model_predict m (model_input img) verbose = Ret preds ->
  snd (predict_captcha m img_path verbose w) = decode preds.
Proof.
  intros Himg Hpred.
  rewrite (predict_captcha_readable m img_path verbose w img Himg), Hpred.
  reflexivity.
Qed.

(** C7: take two runs of [predict_captcha], with any two
    installations, models, image paths, verbosity flags and process
    states; if in both the image is readable and [model.predict] returns
    the same predictions, both runs return the same result, which is
    [decode] of those predictions. *)
Theorem decoding_deterministic (E1 E2 : External)
    (m1 : @model E1) (m2 : @model E2) (path1 path2 : pystr) (verbose1 verbose2 : Z)
    (w1 w2 : world) (img1 img2 : image) (preds : predictions)
    (Himg1 : @cv2_imread E1 path1 = Some img1)
    (Himg2 : @cv2_imread E2 path2 = Some img2)
    (Hpred1 : @model_predict E1 m1 (@model_input E1 img1) verbose1 = Ret preds)
    (Hpred2 : @model_predict E2 m2 (@model_input E2 img2) verbose2 = Ret preds) :
  snd (@predict_captcha E1 m1 path1 verbose1 w1)
    = snd (@predict_captcha E2 m2 path2 verbose2 w2) /\
  snd (@predict_captcha E1 m1 path1 verbose1 w1) = decode preds.
Proof.
  rewrite (@predict_captcha_decode E1 m1 path1 verbose1 w1 img1 preds Himg1 Hpred1).
  rewrite (@predict_captcha_decode E2 m2 path2 verbose2 w2 img2 preds Himg2 Hpred2).
  split; reflexivity.
Qed.

Lemma decoding_deterministic_witness :
  @cv2_imread demo_external (py "captcha.png") = Some demo_image /\
  @cv2_imread demo_external_other (py "other.jpg") = Some [[[xff; xff; xff]]] /\
  snd (@predict_captcha demo_external tt (py "captcha.png") 0 (initial ∅))
    = snd (@predict_captcha demo_external_other true (py "other.jpg") 1
             (World {[ TF_CPP_MIN_LOG_LEVEL := py "3" ]} [EvLoadModel MODEL_PATH])).
Proof.
  split; [reflexivity |]. split; [reflexivity |].
  exact (proj1 (decoding_deterministic demo_external demo_external_other
                  tt true (py "captcha.png") (py "other.jpg") 0 1
                  (initial ∅)
                  (World {[ TF_CPP_MIN_LOG_LEVEL := py "3" ]} [EvLoadModel MODEL_PATH])
                  demo_image [[[xff; xff; xff]]] demo_predictions
                  eq_refl eq_refl eq_refl eq_refl)).
Defined.

(** ** Whole runs of the demonstration installation *)

Example demo_run_verbose :
  @main demo_external (py "solve_captcha.py")
    [TokVerbose; TokPositional (py "captcha.png")] (initial ∅) =
    (World ∅
       [EvImport "tensorflow" ∅;
        EvLoadModel (py "captcha_model.keras");
        EvImread (py "captcha.png");
        EvPredict 1;
        EvPrint (py "cz1")],
     Ret tt).
Proof. vm_compute. reflexivity. Qed.

Example demo_run_missing_file :
  exit_status
    (snd (@main demo_external (py "solve_captcha.py")
            [TokPositional (py "/no/such/file.png")] (initial ∅))) = 1.
Proof. vm_compute. reflexivity. Qed.

Example demo_run_help :
  @main demo_external (py "solve_captcha.py") [TokHelp] (initial ∅) =
    (World ∅ [EvArgparseHelp], Exit 0).
Proof. reflexivity. Qed.

(** * Further properties of the script *)

(** ** index_to_char below zero *)

Lemma str_int_nonempty (n : Z) : str_int n <> [].
Proof.
  unfold str_int, NilZero.string_of_int, NilZero.string_of_uint.
  destruct (Z.to_int n) as [d | d]; destruct d; discriminate.
Qed.

Lemma str_int_negative (p : positive) :
  str_int (Zneg p) = ord "-" :: str_int (Zpos p).
Proof. reflexivity. Qed.

(** X1: a negative index of at most 4300 digits takes the [str] branch
    of line 28: the result is a minus sign followed by the decimal
    digits of the absolute value, so it has at least two characters and
    starts outside the alphabet. *)
Theorem index_to_char_negative_index (i : Z)
    (Hneg : i < 0) (Hdigits : - 10 ^ 4300 < i) :
  index_to_char i = Ret (ord "-" :: str_int (- i)) /\
  str_int (- i) <> [] /\
  in_alphabet (ord "-") = false /\
  (forall c, index_to_char i <> Ret [c]).
Proof.
  destruct i as [| p | p]; try lia.
  assert (Hrun : index_to_char (Z.neg p) = Ret (ord "-" :: str_int (- Z.neg p))).
  { unfold index_to_char. change (Z.neg p <? 10) with true. cbn iota.
    rewrite str_int_negative. reflexivity. }
  split; [exact Hrun |]. split; [apply str_int_nonempty |]. split; [reflexivity |].
  intros c Hc. rewrite Hrun in Hc. injection Hc as _ Hnil.
  exact (str_int_nonempty _ Hnil).
Qed.

Lemma index_to_char_negative_index_witness :
  -12 < 0 /\ - 10 ^ 4300 < -12 /\ index_to_char (-12) = Ret (py "-12").
Proof.
  assert (H : -12 < 0) by lia.
  assert (Hd : - 10 ^ 4300 < -12) by (vm_compute; reflexivity).
  split; [exact H |]. split; [exact Hd |].
  exact (proj1 (index_to_char_negative_index (-12) H Hd)).
Defined.

(** ** Decoding: failures, concatenation, oversized slots *)

Lemma slot_char_result (pred : list float32) :
  (exists s, rbind (slot_index pred) index_to_char = Ret s) \/
  (exists msg, rbind (slot_index pred) index_to_char = Raise (ValueError msg)).
Proof.
  unfold slot_index. destruct pred as [| x l]; [right; eexists; reflexivity |].
  cbn [np_argmax rbind]. unfold index_to_char, chr.
  match goal with |- context [?i <? 10] => destruct (i <? 10) end; [left; eauto |].
  match goal with |- context [if ?b then _ else _] => destruct b end;
    [left | right]; eexists; reflexivity.
Qed.

Lemma decode_slots_empty_slot (preds : predictions) :
  In [] preds -> exists msg, decode_slots preds = Raise (ValueError msg).
Proof.
  unfold decode_slots.
  induction preds as [| pred preds IH]; intros Hin; [destruct Hin |].
  cbn [traverse].
  destruct (slot_char_result pred) as [(s & Hs) | (msg & Hmsg)].
  - destruct Hin as [-> | Hin]; [discriminate Hs |].
    destruct (IH Hin) as (msg & Hmsg). rewrite Hs, Hmsg. eexists. reflexivity.
  - rewrite Hmsg. eexists. reflexivity.
Qed.

(** X2: when the model's answer holds an empty score vector,
    [predict_captcha] raises [ValueError] after the read and the
    inference, and prints nothing: no part of the text is output. *)
Theorem empty_slot_raises `{E : External} (m : model) (img_path : pystr)
    (verbose : Z) (w : world) (img : image) (preds : predictions)
    (Himg : cv2_imread img_path = Some img)
    (Hpred : model_predict m (model_input img) verbose = Ret preds)
    (Hempty : In [] preds) :
  exists msg,
    predict_captcha m img_path verbose w =
      (World (environ w) (trace w ++ [EvImread img_path; EvPredict verbose]),
       Raise (ValueError msg)).
Proof.
  destruct (decode_slots_empty_slot preds Hempty) as (msg & Hmsg).
  exists msg.
  rewrite (predict_captcha_readable m img_path verbose w img Himg), Hpred.
  cbv zeta. rewrite Hmsg, <- app_assoc. reflexivity.
Qed.

Lemma empty_slot_raises_witness :
  let E := {| model := unit;
              cv2_imread := fun _ => Some demo_image;
              cv2_resize := fun img _ => img;
              load_model := fun _ => Ret tt;
              model_predict := fun _ _ _ => Ret [one_hot 36 7; []] |} in
  cv2_imread (py "captcha.png") = Some demo_image /\
  In [] [one_hot 36 7; []] /\
  exists msg,
    predict_captcha tt (py "captcha.png") 0 (initial ∅) =
      (World ∅ [EvImread (py "captcha.png"); EvPredict 0], Raise (ValueError msg)).
Proof.
  intros E.
  assert (Hin : In [] [one_hot 36 7; []]) by (right; left; reflexivity).
  split; [reflexivity |]. split; [exact Hin |].
  exact (@empty_slot_raises E tt (py "captcha.png") 0 (initial ∅) demo_image
           [one_hot 36 7; []] eq_refl eq_refl Hin).
Defined.

Lemma traverse_app {A B} (f : A -> result B) (l1 l2 : list A) :
  traverse f (l1 ++ l2) =
    rbind (traverse f l1) (fun ys1 =>
      rbind (traverse f l2) (fun ys2 => Ret (ys1 ++ ys2))).
Proof.
  induction l1 as [| x l1 IH]; cbn [app traverse rbind].
  - destruct (traverse f l2); reflexivity.
  - destruct (f x) as [y | n | e]; cbn [rbind]; [| reflexivity ..].
    rewrite IH. destruct (traverse f l1) as [ys1 | n | e]; cbn [rbind]; [| reflexivity ..].
    destruct (traverse f l2); reflexivity.
Qed.

(** X3: decoding goes slot by slot.  The text for two runs of slots
    put end to end is the two texts put end to end, and a failure among
    the first slots is the failure of the whole, whatever follows. *)
Theorem decode_app (preds1 preds2 : predictions) :
  (forall s1 s2, decode preds1 = Ret s1 -> decode preds2 = Ret s2 ->
     decode (preds1 ++ preds2) = Ret (s1 ++ s2)) /\
  (forall e, decode preds1 = Raise e -> decode (preds1 ++ preds2) = Raise e) /\
  (forall s1 e, decode preds1 = Ret s1 -> decode preds2 = Raise e ->
     decode (preds1 ++ preds2) = Raise e).
Proof.
  unfold decode, decode_slots. rewrite traverse_app.
  destruct (traverse _ preds1) as [c1 | n1 | e1];
    destruct (traverse _ preds2) as [c2 | n2 | e2]; cbn [rbind];
    repeat split; intros; try discriminate;
    repeat match goal with H : Ret _ = Ret _ |- _ => injection H as <- end;
    try assumption; try reflexivity.
  - now rewrite concat_app.
Qed.

Lemma decode_app_witness :
  decode demo_predictions = Ret (py "cz1") /\
  decode (demo_predictions ++ demo_predictions) = Ret (py "cz1cz1").
Proof.
  assert (H : decode demo_predictions = Ret (py "cz1")) by (vm_compute; reflexivity).
  split; [exact H |].
  exact (proj1 (decode_app demo_predictions demo_predictions) _ _ H H).
Defined.

Lemma SFltb_leb_absurd (x y : float32) :
  is_nan x = false -> is_nan y = false ->
  SFltb x y = true -> SFleb y x = true -> False.
Proof.
  intros Hx Hy Hlt Hle.
  apply SFltb_key in Hlt; [| assumption ..].
  apply SFleb_key in Hle; [| assumption ..].
  exact (Hle Hlt).
Qed.

(** A NaN-free array has at most one first maximum. *)
Lemma is_first_max_unique (a : list float32) (i j : Z) :
  nan_free a = true -> is_first_max a i -> is_first_max a j -> i = j.
Proof.
  intros Hnan (x & Hi0 & Hx & Hxle & Hxlt) (y & Hj0 & Hy & Hyle & Hylt).
  assert (Hnx : is_nan x = false) by (eapply nan_free_lookup; eassumption).
  assert (Hny : is_nan y = false) by (eapply nan_free_lookup; eassumption).
  destruct (Z.lt_trichotomy i j) as [Hlt | [Heq | Hgt]]; [exfalso | exact Heq | exfalso].
  - apply (SFltb_leb_absurd x y Hnx Hny).
    + apply (Hylt (Z.to_nat i)); [exact Hx | lia].
    + apply (Hxle (Z.to_nat j)). exact Hy.
  - apply (SFltb_leb_absurd y x Hny Hnx).
    + apply (Hxlt (Z.to_nat j)); [exact Hy | lia].
    + apply (Hyle (Z.to_nat i)). exact Hx.
Qed.

(** X4: the decoder does not check the number of classes.  When a
    NaN-free slot has its first maximum at a position from 36 to
    1114024, decoding succeeds and gives the single character
    [chr(position - 10 + ord('a'))], which is not in [0-9a-z]. *)
Theorem oversized_slot_decodes_outside_alphabet (pred : list float32) (i : Z)
    (Hnan : nan_free pred = true)
    (Hmax : is_first_max pred i)
    (Hrange : 36 <= i <= 1114024) :
  decode [pred] = Ret [i - 10 + ord "a"] /\
  in_alphabet (i - 10 + ord "a") = false.
Proof.
  assert (Hne : pred <> []).
  { destruct Hmax as (x & _ & Hx & _). intros ->. discriminate Hx. }
  destruct (np_argmax_first_max pred Hne Hnan) as (i' & Hi' & Hmax').
  assert (i' = i) as -> by (eapply is_first_max_unique; eassumption).
  split.
  - unfold decode, decode_slots, slot_index. cbn [traverse rbind]. rewrite Hi'.
    cbn [rbind]. rewrite index_to_char_chr by lia.
    rewrite chr_in_range by (change (ord "a") with 97; lia). reflexivity.
  - destruct (in_alphabet (i - 10 + ord "a")) eqn:Ha; [| reflexivity].
    apply in_alphabet_spec in Ha. change (ord "a") with 97 in Ha. lia.
Qed.

Lemma oversized_slot_decodes_outside_alphabet_witness :
  nan_free (one_hot 40 36) = true /\
  36 <= 36 <= 1114024 /\
  decode [one_hot 40 36] = Ret (py "{").
Proof.
  assert (Hnan : nan_free (one_hot 40 36) = true) by (vm_compute; reflexivity).
  assert (Hr : 36 <= 36 <= 1114024) by lia.
  assert (Hmax : is_first_max (one_hot 40 36) 36).
  { destruct (np_argmax_first_max (one_hot 40 36)) as (i & Hi & Hm);
      [discriminate | exact Hnan |].
    vm_compute in Hi. injection Hi as <-. exact Hm. }
  split; [exact Hnan |]. split; [exact Hr |].
  exact (proj1 (oversized_slot_decodes_outside_alphabet (one_hot 40 36) 36 Hnan Hmax Hr)).
Defined.

(** ** Whole runs of the script body *)

(** X5: the run that succeeds.  With a non-empty path, the model file
    loading, the image readable and the model's answer decoding to a
    text of ASCII characters, the script does, in this order: the
    optional assignment of the logging variable, the import, the model
    load, the read, one inference with [verbose] 1 under [--verbose] and
    0 otherwise, and one print of the text; it ends normally, with exit
    status 0. *)
Theorem successful_run `{E : External} (argv0 : pystr) (args : Namespace) (w : world)
    (m : model) (img : image) (preds : predictions) (text : pystr)
    (Hpath : image_path args <> [])
    (Hload : load_model MODEL_PATH = Ret m)
    (Himg : cv2_imread (image_path args) = Some img)
    (Hpred : model_predict m (model_input img) (if verbose args then 1 else 0) = Ret preds)
    (Hdecode : decode preds = Ret text)
    (Hascii : forallb is_ascii text = true) :
  script_body argv0 args w =
    (let env1 := if verbose args then environ w
                 else <[TF_CPP_MIN_LOG_LEVEL := py "3"]> (environ w) in
     (World env1
        (trace w
         ++ (if verbose args then [] else [EvSetEnv TF_CPP_MIN_LOG_LEVEL (py "3")])
         ++ [EvImport "tensorflow" env1;
             EvLoadModel MODEL_PATH;
             EvImread (image_path args);
             EvPredict (if verbose args then 1 else 0);
             EvPrint text]),
      Ret tt)) /\
  exit_status (snd (script_body argv0 args w)) = 0.
Proof.
  rewrite script_body_run; cbv zeta.
  rewrite bool_decide_eq_false_2 by exact Hpath.
  rewrite Hload.
  rewrite (predict_captcha_readable m (image_path args) _ _ img Himg); cbv zeta.
  rewrite Hpred. unfold decode in Hdecode.
  destruct (decode_slots preds) as [chars | n | e]; cbn [rbind] in *; try discriminate.
  injection Hdecode as ->. cbn [environ trace snd exit_status].
  split; [| reflexivity].
  rewrite <- !app_assoc. reflexivity.
Qed.

Lemma successful_run_witness :
  let E := demo_external in
  let args := {| verbose := false; image_path := py "captcha.png" |} in
  image_path args <> [] /\
  forallb is_ascii (py "cz1") = true /\
  script_body (py "solve_captcha.py") args (initial ∅) =
    (World {[ TF_CPP_MIN_LOG_LEVEL := py "3" ]}
       [EvSetEnv TF_CPP_MIN_LOG_LEVEL (py "3");
        EvImport "tensorflow" {[ TF_CPP_MIN_LOG_LEVEL := py "3" ]};
        EvLoadModel (py "captcha_model.keras");
        EvImread (py "captcha.png");
        EvPredict 0;
        EvPrint (py "cz1")],
     Ret tt).
Proof.
  intros E args.
  assert (Hpath : image_path args <> []) by discriminate.
  assert (Hdec : decode demo_predictions = Ret (py "cz1")) by (vm_compute; reflexivity).
  split; [exact Hpath |]. split; [reflexivity |].
  exact (proj1 (@successful_run E (py "solve_captcha.py") args (initial ∅) tt
                  demo_image demo_predictions (py "cz1")
                  Hpath eq_refl eq_refl eq_refl Hdec eq_refl)).
Defined.

(** X6: a model file that does not load.  When [load_model] raises,
    the script ends on that exception, uncaught, with exit status 1; the
    load is the last event, and no image is read, no inference is run
    and nothing is printed. *)
Theorem model_load_failure `{E : External} (argv0 : pystr) (args : Namespace)
    (w : world) (e : exn)
    (Hpath : image_path args <> [])
    (Hload : load_model MODEL_PATH = Raise e) :
  exists w' new,
    script_body argv0 args w = (w', Raise e) /\
    exit_status (snd (script_body argv0 args w)) = 1 /\
    trace w' = trace w ++ new /\
    last new = Some (EvLoadModel MODEL_PATH) /\
    existsb is_imread new = false /\
    existsb is_predict new = false /\
    existsb is_print new = false.
Proof.
  rewrite script_body_run; cbv zeta.
  rewrite bool_decide_eq_false_2 by exact Hpath.
  rewrite Hload. cbn [snd exit_status].
  eexists. eexists. split; [reflexivity |]. split; [reflexivity |].
  cbn [trace]. split; [rewrite <- !app_assoc; reflexivity |].
  destruct (verbose args); cbn; auto.
Qed.

Lemma model_load_failure_witness :
  let E := {| model := unit;
              cv2_imread := fun _ => Some demo_image;
              cv2_resize := fun img _ => img;
              load_model := fun _ => Raise (ExternalError "File not found");
              model_predict := fun _ _ _ => Ret demo_predictions |} in
  let args := {| verbose := true; image_path := py "captcha.png" |} in
  image_path args <> [] /\
  snd (script_body (py "solve_captcha.py") args (initial ∅))
    = Raise (ExternalError "File not found").
Proof.
  intros E args.
  assert (Hpath : image_path args <> []) by discriminate.
  split; [exact Hpath |].
  destruct (@model_load_failure E (py "solve_captcha.py") args (initial ∅)
              (ExternalError "File not found") Hpath eq_refl)
    as (w' & new & Hrun & _).
  rewrite Hrun. reflexivity.
Defined.

Lemma predict_captcha_inference_raises `{E : External} (m : model) (img_path : pystr)
    (verbose : Z) (w : world) (img : image) (e : exn) :
  cv2_imread img_path = Some img ->
  model_predict m (model_input img) verbose = Raise e ->
  predict_captcha m img_path verbose w =
    (World (environ w) (trace w ++ [EvImread img_path; EvPredict verbose]), Raise e).
Proof.
  intros Himg Hpred.
  rewrite (predict_captcha_readable m img_path verbose w img Himg), Hpred.
  cbv zeta. rewrite <- app_assoc. reflexivity.
Qed.

(** X7: an inference that fails.  With the model loaded and the image
    readable, when [model.predict] raises, the script ends on that
    exception, uncaught, with exit status 1; the inference call is the
    last event and nothing is printed. *)
Theorem inference_failure `{E : External} (argv0 : pystr) (args : Namespace)
    (w : world) (m : model) (img : image) (e : exn)
    (Hpath : image_path args <> [])
    (Hload : load_model MODEL_PATH = Ret m)
    (Himg : cv2_imread (image_path args) = Some img)
    (Hpred : model_predict m (model_input img) (if verbose args then 1 else 0) = Raise e) :
  exists w' new,
    script_body argv0 args w = (w', Raise e) /\
    exit_status (snd (script_body argv0 args w)) = 1 /\
    trace w' = trace w ++ new /\
    last new = Some (EvPredict (if verbose args then 1 else 0)) /\
    existsb is_print new = false.
Proof.
  rewrite script_body_run; cbv zeta.
  rewrite bool_decide_eq_false_2 by exact Hpath.
  rewrite Hload.
  rewrite (predict_captcha_inference_raises m (image_path args) _ _ img e Himg Hpred).
  cbn [snd exit_status].
  eexists. eexists. split; [reflexivity |]. split; [reflexivity |].
  cbn [trace]. split; [rewrite <- !app_assoc; reflexivity |].
  destruct (verbose args); cbn; auto.
Qed.

Lemma inference_failure_witness :
  let E := {| model := unit;
              cv2_imread := fun _ => Some demo_image;
              cv2_resize := fun img _ => img;
              load_model := fun _ => Ret tt;
              model_predict := fun _ _ _ => Raise (ExternalError "incompatible shape") |} in
  let args := {| verbose := true; image_path := py "captcha.png" |} in
  image_path args <> [] /\
  cv2_imread (image_path args) = Some demo_image /\
  script_body (py "solve_captcha.py") args (initial ∅) =
    (World ∅ [EvImport "tensorflow" ∅;
              EvLoadModel (py "captcha_model.keras");
              EvImread (py "captcha.png");
              EvPredict 1],
     Raise (ExternalError "incompatible shape")).
Proof.
  intros E args.
  assert (Hpath : image_path args <> []) by discriminate.
  split; [exact Hpath |]. split; [reflexivity |].
  destruct (@inference_failure E (py "solve_captcha.py") args (initial ∅) tt demo_image
              (ExternalError "incompatible shape") Hpath eq_refl eq_refl eq_refl)
    as (w' & new & Hrun & _).
  reflexivity.
Defined.

(** ** The environment *)

Lemma parse_args_environ (toks : list token) (w : world) :
  environ (fst (parse_args toks w)) = environ w.
Proof.
  unfold parse_args, bind, emit, sys_exit, ret.
  destruct (existsb is_help toks); [reflexivity |].
  destruct (positionals toks) as [| p extras]; [reflexivity |].
  destruct (negb (bool_decide (extras = [])) || existsb is_unknown toks); reflexivity.
Qed.

Lemma script_body_environ `{E : External} (argv0 : pystr) (args : Namespace) (w : world) :
  environ (fst (script_body argv0 args w)) =
    if verbose args then environ w
    else <[TF_CPP_MIN_LOG_LEVEL := py "3"]> (environ w).
Proof.
  rewrite script_body_run; cbv zeta.
  set (env1 := if verbose args then environ w
               else <[TF_CPP_MIN_LOG_LEVEL := py "3"]> (environ w)).
  clearbody env1.
  destruct (bool_decide (image_path args = [])); [reflexivity |].
  destruct (load_model MODEL_PATH) as [m | n | e]; [| reflexivity ..].
  match goal with |- context [predict_captcha m ?p ?v ?w0] =>
    destruct (predict_captcha_events m p v w0) as (post & Hw & _);
    destruct (predict_captcha m p v w0) as [w3 [text | n | e]]
  end; cbn [fst environ trace] in Hw; subst w3; reflexivity.
Qed.

(** X8: the only change the script makes to the process environment is
    the assignment of "3" to [TF_CPP_MIN_LOG_LEVEL], made when the
    command line parses without [--verbose].  Every other variable keeps
    its value on every run, and a run that argparse ends, or one with
    [--verbose], leaves the environment as it was. *)
Theorem environment_only_log_level `{E : External} (argv0 : pystr)
    (toks : list token) (w : world) :
  environ (fst (main argv0 toks w)) =
    match snd (parse_args toks w) with
    | Ret args =>
        if verbose args then environ w
        else <[TF_CPP_MIN_LOG_LEVEL := py "3"]> (environ w)
    | _ => environ w
    end /\
  (forall key, key <> TF_CPP_MIN_LOG_LEVEL ->
     environ (fst (main argv0 toks w)) !! key = environ w !! key).
Proof.
  assert (Hmain : environ (fst (main argv0 toks w)) =
    match snd (parse_args toks w) with
    | Ret args =>
        if verbose args then environ w
        else <[TF_CPP_MIN_LOG_LEVEL := py "3"]> (environ w)
    | _ => environ w
    end).
  { unfold main, bind.
    pose proof (parse_args_environ toks w) as Henv.
    pose proof (parse_args_ret toks w) as Hret.
    destruct (parse_args toks w) as [w1 [args | n | e]]; cbn [fst snd] in *;
      [| exact Henv ..].
    destruct (Hret args eq_refl) as (Hw & _). injection Hw as ->.
    apply script_body_environ. }
  split; [exact Hmain |].
  intros key Hkey. rewrite Hmain.
  destruct (snd (parse_args toks w)) as [args | n | e]; [| reflexivity ..].
  destruct (verbose args); [reflexivity |].
  apply lookup_insert_ne. congruence.
Qed.

(** ** The command line without a positional *)

(** X9: take a command line whose arguments are all of the forms
    [classify] covers (so none is [--], [--opt=value] or a single-dash
    string other than [-h]) and none of which is positional.  The script
    then ends inside [parse_args]: with status 0 after printing the help
    when a help option is among them, with status 2 after argparse's
    error about the missing [image_path] otherwise.  The exit status is
    never 1, and nothing else happens: no assignment, no import, no
    model load. *)
Theorem no_positional_never_exits_1 `{E : External} (argv0 : pystr)
    (argv : list pystr) (toks : list token) (w : world)
    (Hargv : tokens_of_argv argv = Some toks)
    (Hpos : positionals toks = []) :
  main argv0 toks w =
    (if existsb is_help toks
     then (World (environ w) (trace w ++ [EvArgparseHelp]), Exit 0)
     else (World (environ w)
             (trace w ++ [EvArgparseError (RequiredMissing "image_path")]), Exit 2)) /\
  exit_status (snd (main argv0 toks w)) <> 1.
Proof.
  unfold main, bind.
  rewrite (parse_args_no_positional toks w Hpos).
  destruct (existsb is_help toks); cbn [snd exit_status]; split;
    solve [reflexivity | lia].
Qed.

Lemma no_positional_never_exits_1_witness :
  tokens_of_argv [py "--verbose"; py "--fast"] = Some [TokVerbose; TokUnknown (py "--fast")] /\
  positionals [TokVerbose; TokUnknown (py "--fast")] = [] /\
  @main demo_external (py "solve_captcha.py") [TokVerbose; TokUnknown (py "--fast")]
    (initial ∅) =
    (World ∅ [EvArgparseError (RequiredMissing "image_path")], Exit 2).
Proof.
  split; [reflexivity |]. split; [reflexivity |].
  exact (proj1 (@no_positional_never_exits_1 demo_external (py "solve_captcha.py")
                  [py "--verbose"; py "--fast"]
                  [TokVerbose; TokUnknown (py "--fast")] (initial ∅) eq_refl eq_refl)).
Defined.

(** ** Normalisation keeps the order of pixel values *)

Lemma normalise_increasing_holds : normalise_increasing = true.
Proof. vm_compute. reflexivity. Qed.

Lemma byte_to_Z_range (b : byte) : 0 <= Z.of_N (Byte.to_N b) < 256.
Proof. destruct b; vm_compute; split; congruence. Qed.

(** X10: line 22 keeps pixel values apart and in order.  For two
    [uint8] values, the smaller one is normalised to a strictly smaller
    [float32]; 0 becomes exactly 0.0 and 255 exactly 1.0. *)
Theorem normalisation_strictly_increasing (b1 b2 : byte)
    (Hlt : (Byte.to_N b1 < Byte.to_N b2)%N) :
  exists v1 v2,
    divide_255 (astype_float32 [[[b1; b2]]]) = [[[v1; v2]]] /\
    SFltb v1 v2 = true /\
    divide_255 (astype_float32 [[[x00; xff]]]) = [[[f32_zero; f32_one]]].
Proof.
  eexists. eexists. split; [reflexivity |]. split; [| vm_compute; reflexivity].
  fold (normalise (Z.of_N (Byte.to_N b1))). fold (normalise (Z.of_N (Byte.to_N b2))).
  pose proof normalise_increasing_holds as H. unfold normalise_increasing in H.
  rewrite forallb_forall in H.
  pose proof (byte_to_Z_range b1) as H1. pose proof (byte_to_Z_range b2) as H2.
  specialize (H (Z.of_N (Byte.to_N b1))).
  rewrite forallb_forall in H.
  assert (Hin1 : In (Z.of_N (Byte.to_N b1)) (seqZ 0 256))
    by (apply list_elem_of_In, elem_of_seqZ; lia).
  assert (Hin2 : In (Z.of_N (Byte.to_N b2)) (seqZ 0 256))
    by (apply list_elem_of_In, elem_of_seqZ; lia).
  specialize (H Hin1 _ Hin2).
  destruct (Z.of_N (Byte.to_N b1) <? Z.of_N (Byte.to_N b2)) eqn:Hcmp.
  - exact H.
  - apply Z.ltb_ge in Hcmp. lia.
Qed.

Lemma normalisation_strictly_increasing_witness :
  (Byte.to_N x7f < Byte.to_N x80)%N /\
  exists v1 v2,
    divide_255 (astype_float32 [[[x7f; x80]]]) = [[[v1; v2]]] /\
    SFltb v1 v2 = true /\
    divide_255 (astype_float32 [[[x00; xff]]]) = [[[f32_zero; f32_one]]].
Proof.
  assert (H : (Byte.to_N x7f < Byte.to_N x80)%N) by (vm_compute; reflexivity).
  exact (conj H (normalisation_strictly_increasing x7f x80 H)).
Defined.

(** ** Order of the model load and the image read *)

(** X11: the model is loaded before the image is looked at.  With a
    non-empty path that cannot be read and a model file that loads, the
    script imports tensorflow and loads the model first, and only then
    tries the read, prints the error and exits with status 1. *)
Theorem unreadable_image_after_model_load `{E : External} (argv0 : pystr)
    (args : Namespace) (w : world) (m : model)
    (Hpath : image_path args <> [])
    (Hload : load_model MODEL_PATH = Ret m)
    (Himg : cv2_imread (image_path args) = None) :
  script_body argv0 args w =
    (let env1 := if verbose args then environ w
                 else <[TF_CPP_MIN_LOG_LEVEL := py "3"]> (environ w) in
     (World env1
        (trace w
         ++ (if verbose args then [] else [EvSetEnv TF_CPP_MIN_LOG_LEVEL (py "3")])
         ++ [EvImport "tensorflow" env1;
             EvLoadModel MODEL_PATH;
             EvImread (image_path args);
             EvPrint (py "Error: Image not found at " ++ image_path args)]),
      Exit 1)).
Proof.
  rewrite script_body_run; cbv zeta.
  rewrite bool_decide_eq_false_2 by exact Hpath.
  rewrite Hload.
  rewrite (predict_captcha_unreadable m (image_path args) _ _ Himg).
  cbn [environ trace]. rewrite <- !app_assoc. reflexivity.
Qed.

Lemma unreadable_image_after_model_load_witness :
  let E := demo_external in
  let args := {| verbose := true; image_path := py "missing.png" |} in
  image_path args <> [] /\
  cv2_imread (image_path args) = None /\
  script_body (py "solve_captcha.py") args (initial ∅) =
    (World ∅ [EvImport "tensorflow" ∅;
              EvLoadModel (py "captcha_model.keras");
              EvImread (py "missing.png");
              EvPrint (py "Error: Image not found at missing.png")],
     Exit 1).
Proof.
  intros E args.
  assert (Hpath : image_path args <> []) by discriminate.
  split; [exact Hpath |]. split; [reflexivity |].
  exact (@unreadable_image_after_model_load E (py "solve_captcha.py") args (initial ∅) tt
           Hpath eq_refl eq_refl).
Defined.

(** ** What the script prints *)

Lemma count_prints_app (a b : list event) :
  count_prints (a ++ b) = (count_prints a + count_prints b)%nat.
Proof. unfold count_prints. now rewrite List.filter_app, length_app. Qed.

Lemma predict_captcha_prints `{E : External} (m : model) (img_path : pystr)
    (verbose : Z) (w : world) :
  exists post,
    fst (predict_captcha m img_path verbose w) = World (environ w) (trace w ++ post) /\
    match snd (predict_captcha m img_path verbose w) with
    | Ret _ => count_prints post = 0%nat
    | _ => (count_prints post <= 1)%nat
    end.
Proof.
  destruct (cv2_imread img_path) as [img |] eqn:Himg.
  - rewrite (predict_captcha_readable m img_path verbose w img Himg); cbv zeta.
    exists [EvImread img_path; EvPredict verbose]. rewrite <- app_assoc.
    destruct (model_predict m (model_input img) verbose) as [preds | n | e];
      cbn [fst snd]; [| split; [reflexivity | cbn; lia] ..].
    split; [reflexivity |].
    destruct (rbind (decode_slots preds) _); cbn; lia.
  - rewrite (predict_captcha_unreadable m img_path verbose w Himg). cbn [fst snd].
    eexists. split; [reflexivity | cbn; lia].
Qed.

Lemma script_body_prints `{E : External} (argv0 : pystr) (args : Namespace) (w : world) :
  exists new,
    trace (fst (script_body argv0 args w)) = trace w ++ new /\
    (count_prints new <= 1)%nat /\
    (snd (script_body argv0 args w) = Ret tt ->
     count_prints new = 1%nat /\ exists text, last new = Some (EvPrint text)).
Proof.
  rewrite script_body_run; cbv zeta.
  set (env1 := if verbose args then environ w
               else <[TF_CPP_MIN_LOG_LEVEL := py "3"]> (environ w)).
  clearbody env1.
  set (pre := if verbose args then [] else [EvSetEnv TF_CPP_MIN_LOG_LEVEL (py "3")]).
  assert (Hpre : count_prints pre = 0%nat) by (subst pre; destruct (verbose args); reflexivity).
  clearbody pre.
  destruct (bool_decide (image_path args = [])).
  - eexists (pre ++ [EvImport "tensorflow" env1; EvPrint _]). cbn [fst snd trace].
    split; [rewrite <- !app_assoc; reflexivity |].
    rewrite count_prints_app, Hpre. split; [cbn; lia | discriminate].
  - destruct (load_model MODEL_PATH) as [m | n | e].
    + match goal with |- context [predict_captcha m ?p ?v ?w0] =>
        destruct (predict_captcha_prints m p v w0) as (post & Hw & Hc);
        destruct (predict_captcha m p v w0) as [w3 [text | n | e]]
      end; cbn [fst snd environ trace] in *; subst w3; cbn [trace].
      * exists (pre ++ [EvImport "tensorflow" env1; EvLoadModel MODEL_PATH]
                  ++ post ++ [EvPrint text]).
        split; [rewrite <- !app_assoc; reflexivity |].
        rewrite !count_prints_app, Hpre, Hc.
        split; [cbn; lia |]. intros _. split; [reflexivity |].
        exists text. rewrite !app_assoc. apply last_snoc.
      * exists (pre ++ [EvImport "tensorflow" env1; EvLoadModel MODEL_PATH] ++ post).
        split; [rewrite <- !app_assoc; reflexivity |].
        rewrite !count_prints_app, Hpre.
        split; [cbn; cbn in Hc; lia | discriminate].
      * exists (pre ++ [EvImport "tensorflow" env1; EvLoadModel MODEL_PATH] ++ post).
        split; [rewrite <- !app_assoc; reflexivity |].
        rewrite !count_prints_app, Hpre.
        split; [cbn; cbn in Hc; lia | discriminate].
    + exists (pre ++ [EvImport "tensorflow" env1; EvLoadModel MODEL_PATH]).
      cbn [fst snd trace]. split; [rewrite <- !app_assoc; reflexivity |].
      rewrite count_prints_app, Hpre. split; [cbn; lia | discriminate].
    + exists (pre ++ [EvImport "tensorflow" env1; EvLoadModel MODEL_PATH]).
      cbn [fst snd trace]. split; [rewrite <- !app_assoc; reflexivity |].
      rewrite count_prints_app, Hpre. split; [cbn; lia | discriminate].
Qed.

Lemma parse_args_prints (toks : list token) (w : world) :
  exists new,
    trace (fst (parse_args toks w)) = trace w ++ new /\ count_prints new = 0%nat.
Proof.
  unfold parse_args, bind, emit, sys_exit, ret.
  destruct (existsb is_help toks); [exists [EvArgparseHelp]; split; reflexivity |].
  destruct (positionals toks) as [| p extras];
    [eexists [EvArgparseError _]; split; reflexivity |].
  destruct (negb (bool_decide (extras = [])) || existsb is_unknown toks);
    [eexists [EvArgparseError _]; split; reflexivity |].
  exists []. cbn [fst trace]. rewrite app_nil_r. split; reflexivity.
Qed.

(** X12: on every run the script itself prints at most one line (the
    usage line, the image error or the decoded text), and a run that
    ends normally printed exactly one, as its last event. *)
Theorem at_most_one_print `{E : External} (argv0 : pystr) (toks : list token) (w : world) :
  exists new,
    trace (fst (main argv0 toks w)) = trace w ++ new /\
    (count_prints new <= 1)%nat /\
    (snd (main argv0 toks w) = Ret tt ->
     count_prints new = 1%nat /\ exists text, last new = Some (EvPrint text)).
Proof.
  unfold main, bind.
  destruct (parse_args_prints toks w) as (new0 & Htr0 & Hc0).
  pose proof (parse_args_ret toks w) as Hret.
  destruct (parse_args toks w) as [w1 [args | n | e]]; cbn [fst snd] in *.
  - destruct (Hret args eq_refl) as (Hw & _). injection Hw as ->.
    apply script_body_prints.
  - exists new0. split; [exact Htr0 |]. split; [lia | discriminate].
  - exists new0. split; [exact Htr0 |]. split; [lia | discriminate].
Qed.
